(** * The backup storage service of pkg/cloudprovider

    A shallow embedding of [backup_service.go]: the three object keys of a
    backup, the ordered upload with its compensating delete, the best-effort
    deletion, the all-or-nothing enumeration, and the cache-backed decorator.

    Go values are modelled as follows.
    - [string] is [String.string]; a stream ([io.ReadSeeker]) is the payload
      it carries.
    - The interface type [error] is [option error]: [None] is Go's [nil].
    - A function returning [(T, error)] whose caller looks at the value only
      when the error is nil returns [T + error].
    - A slice result that the code distinguishes from [nil] is an
      [option (list _)]: [None] is the nil slice.
    - The object store behind [ObjectStorageAdapter] is explicit state, and
      every call made on the adapter is appended to a call log, so that
      "attempts" can be read off a run. *)

From Stdlib Require Import String Ascii List.
From stdpp Require Import gmap strings list fin_maps.
Import ListNotations.

Open Scope string_scope.
Open Scope list_scope.

(** ** Errors *)

(** The dynamic values behind Go's [error] interface that this package
    meets: an error carrying a message (from the adapter, the reader, the
    decoder or [fmt.Errorf]) and the aggregate of [k8s.io/apimachinery]. *)
#[warnings="-register-all"]
Inductive error : Type :=
| errorString (msg : string)
| aggregate (errs : list error).

(** Modelled from the spec: the [Error()] method of the aggregate, which
    like [NewAggregate] below belongs to the vendored
    [k8s.io/apimachinery/pkg/util/errors] and is not among the sources. The
    spec asks for "a stable, order-preserving string rendering": one member
    renders as itself, several as a bracketed, comma separated list. An
    [errorString] renders as its message. [Error] is only used for the
    operand of [%v] in a log line and to read the message of an error. *)
Fixpoint Error (e : error) : string :=
  match e with
  | errorString msg => msg
  | aggregate errs =>
      match List.map Error errs with
      | [] => EmptyString
      | [m] => m
      | m :: ms => "[" +:+ m +:+ String.concat EmptyString (List.map (fun x => ", " +:+ x) ms) +:+ "]"
      end
  end.

(** Modelled from the spec: [errors.NewAggregate] of the vendored
    [k8s.io/apimachinery/pkg/util/errors], which is not among the sources.
    The spec describes its result as "a structured collection of 1 to N
    underlying errors, never silently dropping one", "nil if both
    succeeded", holding "the data-write failure and, if it also failed, the
    rollback-delete failure": nil members are left out, no member at all
    gives nil, and the members keep their order. *)
Definition NewAggregate (errlist : list (option error)) : option error :=
  match omap id errlist with
  | [] => None
  | errs => Some (aggregate errs)
  end.

(** ** fmt.Sprintf *)

(** An operand of a formatting call: its default rendering ([%s], [%v]) and
    the name of its dynamic type ([%T]). *)
Record operand : Type := Operand { text : string; goType : string }.

Definition ofString (s : string) : operand := Operand s "string".
Definition ofError (e : error) : operand :=
  Operand (Error e)
          match e with
          | errorString _ => "*errors.errorString"
          | aggregate _ => "errors.aggregate"
          end.

Definition formatVerb (verb : ascii) (x : operand) : string :=
  if Ascii.eqb verb "T" then goType x else text x.

(** The fragment of [fmt.Sprintf] used by this package: the verbs [%s],
    [%v] and [%T], and [%%]. A verb without an operand prints Go's
    [%!verb(MISSING)]; every call below passes one operand per verb. *)
Fixpoint Sprintf (format : string) (a : list operand) : string :=
  match format with
  | EmptyString => EmptyString
  | String c rest =>
      if Ascii.eqb c "%" then
        match rest with
        | EmptyString => "%!(NOVERB)"
        | String verb rest' =>
            if Ascii.eqb verb "%" then String "%" (Sprintf rest' a)
            else match a with
                 | x :: a' => formatVerb verb x +:+ Sprintf rest' a'
                 | [] => "%!" +:+ String verb "(MISSING)" +:+ Sprintf rest' []
                 end
        end
      else String c (Sprintf rest a)
  end.

(** ** Object keys *)

Definition metadataFileFormatString : string := "%s/ark-backup.json".
Definition backupFileFormatString : string := "%s/%s.tar.gz".
Definition logFileFormatString : string := "%s/%s.log.gz".

Definition getMetadataKey (backup : string) : string :=
  Sprintf metadataFileFormatString [ofString backup].

Definition getBackupKey (backup : string) : string :=
  Sprintf backupFileFormatString [ofString backup; ofString backup].

Definition getBackupLogKey (backup : string) : string :=
  Sprintf logFileFormatString [ofString backup; ofString backup].


(** ** Values exchanged with the collaborators *)

(** [io.ReadSeeker] handed to [PutObject]: the payload to store. *)
Definition ReadSeeker : Type := string.

(** [io.ReadCloser] returned by [GetObject]: the bytes [ioutil.ReadAll]
    obtains from it, or the error with which reading stops. *)
Inductive ReadCloser : Type :=
| Body (data : string)
| BrokenBody (err : error).

Definition ReadAll (res : ReadCloser) : string + error :=
  match res with
  | Body data => inl data
  | BrokenBody err => inr err
  end.

(** [api.Backup], the decoded metadata manifest (name, spec, status). *)
Record Backup : Type := mkBackup { Name : string; Spec : string; Status : string }.

(** [runtime.Object] as returned by the decoder: a [*api.Backup], or a value
    of some other dynamic type ([%T] prints [dynType]; the nil interface
    prints as [<nil>]). *)
Inductive Object : Type :=
| BackupObject (b : Backup)
| OtherObject (dynType : string).

Definition typeOf (obj : Object) : string :=
  match obj with
  | BackupObject _ => "*v1.Backup"
  | OtherObject ty => ty
  end.

(** Only [%T] is ever applied to an object. *)
Definition ofObject (obj : Object) : operand := Operand EmptyString (typeOf obj).

(** [time.Duration] *)
Definition Duration : Type := Z.

(** The [ObjectStorageAdapter] interface over a store of type [S]. Its
    declaration is not among the sources; the methods are the ones the
    service calls, with the store passed in and out. *)
Class ObjectStorageAdapter (S : Type) : Type := {
  PutObject : string -> string -> ReadSeeker -> S -> option error * S;
  GetObject : string -> string -> S -> (ReadCloser + error) * S;
  DeleteObject : string -> string -> S -> option error * S;
  ListCommonPrefixes : string -> string -> S -> (list string + error) * S;
  CreateSignedURL : string -> string -> Duration -> S -> (string + error) * S
}.

(** A call made on the adapter, or a [Close] of a body it returned. *)
Inductive Call : Type :=
| CallPutObject (bucket key : string) (body : ReadSeeker)
| CallGetObject (bucket key : string)
| CallDeleteObject (bucket key : string)
| CallListCommonPrefixes (bucket delimiter : string)
| CallCreateSignedURL (bucket key : string) (ttl : Duration)
| CallClose (bucket key : string).

(** A line handed to glog, the observability channel. *)
Inductive LogLine : Type :=
| LogError (msg : string)
| LogInfoV (level : nat) (msg : string).

(** The decoder obtained from [scheme.Codecs.UniversalDecoder]: external to
    this package, it sees the payload only ([Decode(data, nil, nil)]). *)
Class Decoder : Type := { Decode : string -> Object + error }.

(** ** The service *)

Section BackupService.
Context {S : Type} {adapter : ObjectStorageAdapter S} {decoder : Decoder}.

(** What a run can touch: the object store, the log of calls made on the
    adapter, and the lines written to glog. *)
Record World : Type := mkWorld {
  objectStorage : S;
  calls : list Call;
  glog : list LogLine
}.

(** Computations over the world. *)
Definition M (A : Type) : Type := World -> A * World.

Definition ret {A} (a : A) : M A := fun w => (a, w).

Definition bind {A B} (c : M A) (k : A -> M B) : M B :=
  fun w => let (a, w') := c w in k a w'.

Definition called (c : Call) (w : World) (s' : S) : World :=
  mkWorld s' (calls w ++ [c]) (glog w).

Definition putObject (bucket key : string) (body : ReadSeeker) : M (option error) :=
  fun w => let (err, s') := PutObject bucket key body (objectStorage w) in
           (err, called (CallPutObject bucket key body) w s').

Definition getObject (bucket key : string) : M (ReadCloser + error) :=
  fun w => let (r, s') := GetObject bucket key (objectStorage w) in
           (r, called (CallGetObject bucket key) w s').

Definition deleteObject (bucket key : string) : M (option error) :=
  fun w => let (err, s') := DeleteObject bucket key (objectStorage w) in
           (err, called (CallDeleteObject bucket key) w s').

Definition listCommonPrefixes (bucket delimiter : string) : M (list string + error) :=
  fun w => let (r, s') := ListCommonPrefixes bucket delimiter (objectStorage w) in
           (r, called (CallListCommonPrefixes bucket delimiter) w s').

Definition createSignedURL (bucket key : string) (ttl : Duration) : M (string + error) :=
  fun w => let (r, s') := CreateSignedURL bucket key ttl (objectStorage w) in
           (r, called (CallCreateSignedURL bucket key ttl) w s').

(** [res.Close()]; its result is discarded by the caller. *)
Definition closeBody (bucket key : string) : M unit :=
  fun w => (tt, called (CallClose bucket key) w (objectStorage w)).

Definition glog_Errorf (format : string) (a : list operand) : M unit :=
  fun w => (tt, mkWorld (objectStorage w) (calls w) (glog w ++ [LogError (Sprintf format a)])).

Definition glog_V_Infof (level : nat) (format : string) (a : list operand) : M unit :=
  fun w => (tt, mkWorld (objectStorage w) (calls w) (glog w ++ [LogInfoV level (Sprintf format a)])).

(** [fmt.Errorf] *)
Definition Errorf (format : string) (a : list operand) : error :=
  errorString (Sprintf format a).
End BackupService.

Arguments World S : clear implicits.
Arguments M S A : clear implicits.

Declare Scope go_scope.
Delimit Scope go_scope with go.
Notation "x <- c ;; k" := (bind c (fun x => k))
  (at level 100, c at next level, right associativity) : go_scope.
Notation "c ;;; k" := (bind c (fun _ => k))
  (at level 100, right associativity) : go_scope.
Open Scope go_scope.

Section BackupServiceMethods.
Context {S : Type} {adapter : ObjectStorageAdapter S} {decoder : Decoder}.

(** [defer d] in a function whose remaining body is [body]. *)
Definition defer {A} (d : M S unit) (body : M S A) : M S A :=
  a <- body ;; d ;;; ret a.

Definition UploadBackup (bucket backupName : string)
           (metadata backup log : ReadSeeker) : M S (option error) :=
  (* upload metadata file *)
  let metadataKey := getMetadataKey backupName in
  err <- putObject bucket metadataKey metadata ;;
  match err with
  | Some err =>
      (* failure to upload metadata file is a hard-stop *)
      ret (Some err)
  | None =>
      (* upload tar file *)
      err <- putObject bucket (getBackupKey backupName) backup ;;
      match err with
      | Some err =>
          (* try to delete the metadata file since the data upload failed *)
          deleteErr <- deleteObject bucket metadataKey ;;
          ret (NewAggregate [Some err; deleteErr])
      | None =>
          (* uploading log file is best-effort *)
          let logKey := getBackupLogKey backupName in
          err <- putObject bucket logKey log ;;
          match err with
          | Some err =>
              glog_Errorf "error uploading %s/%s: %v"
                          [ofString bucket; ofString logKey; ofError err]
          | None => ret tt
          end ;;;
          ret None
      end
  end.

Definition DownloadBackup (bucket backupName : string) : M S (ReadCloser + error) :=
  getObject bucket (getBackupKey backupName).

(** The function literal called once per prefix in [GetAllBackups]. It
    appends to the captured [output]; here [output] goes in and out. *)
Definition GetAllBackups_func1 (bucket backupDir : string) (output : list Backup)
  : M S (list Backup * option error) :=
  let key := getMetadataKey backupDir in
  r <- getObject bucket key ;;
  match r with
  | inr err => ret (output, Some err)
  | inl res =>
      defer (closeBody bucket key)
        match ReadAll res with
        | inr err => ret (output, Some err)
        | inl data =>
            match Decode data with
            | inr err => ret (output, Some err)
            | inl obj =>
                match obj with
                | BackupObject backup => ret (output ++ [backup], None)
                | _ =>
                    ret (output,
                         Some (Errorf "unexpected type for %s/%s: %T"
                                      [ofString bucket; ofString key; ofObject obj]))
                end
            end
        end
  end.

(** [for _, backupDir := range prefixes { ... }] followed by
    [return output, nil]. *)
Fixpoint GetAllBackups_range (bucket : string) (prefixes : list string)
         (output : list Backup) : M S (option (list Backup) * option error) :=
  match prefixes with
  | [] => ret (Some output, None)
  | backupDir :: prefixes' =>
      r <- GetAllBackups_func1 bucket backupDir output ;;
      match r with
      | (_, Some err) => ret (None, Some err)
      | (output', None) => GetAllBackups_range bucket prefixes' output'
      end
  end.

Definition GetAllBackups (bucket : string) : M S (option (list Backup) * option error) :=
  r <- listCommonPrefixes bucket "/" ;;
  match r with
  | inr err => ret (None, Some err)
  | inl prefixes =>
      if Nat.eqb (List.length prefixes) 0 then ret (Some [], None)
      else
        (* output := make([]*api.Backup, 0, len(prefixes)) *)
        GetAllBackups_range bucket prefixes []
  end.

Definition DeleteBackup (bucket backupName : string) : M S (option error) :=
  let errs : list (option error) := [] in
  let key := getBackupKey backupName in
  glog_V_Infof 4 "Trying to delete bucket=%s, key=%s" [ofString bucket; ofString key] ;;;
  err <- deleteObject bucket key ;;
  let errs := match err with Some _ => errs ++ [err] | None => errs end in
  let key := getMetadataKey backupName in
  glog_V_Infof 4 "Trying to delete bucket=%s, key=%s" [ofString bucket; ofString key] ;;;
  err <- deleteObject bucket key ;;
  let errs := match err with Some _ => errs ++ [err] | None => errs end in
  ret (NewAggregate errs).

Definition CreateBackupLogSignedURL (bucket backupName : string) (ttl : Duration)
  : M S (string + error) :=
  createSignedURL bucket (getBackupLogKey backupName) ttl.

Definition CreateBackupSignedURL (bucket backupName : string) (ttl : Duration)
  : M S (string + error) :=
  createSignedURL bucket (getBackupKey backupName) ttl.
End BackupServiceMethods.

(** The earlier revision of the file (pkg/cloudprovider/backup_service.go)
    has no key functions: each method formats its keys in place. It has the
    same methods apart from the two signed-URL ones. *)
Module Inlined.
Section Methods.
Context {S : Type} {adapter : ObjectStorageAdapter S} {decoder : Decoder}.

Definition UploadBackup (bucket backupName : string)
           (metadata backup log : ReadSeeker) : M S (option error) :=
  let metadataKey := Sprintf metadataFileFormatString [ofString backupName] in
  err <- putObject bucket metadataKey metadata ;;
  match err with
  | Some err => ret (Some err)
  | None =>
      let backupKey :=
        Sprintf backupFileFormatString [ofString backupName; ofString backupName] in
      err <- putObject bucket backupKey backup ;;
      match err with
      | Some err =>
          deleteErr <- deleteObject bucket metadataKey ;;
          ret (NewAggregate [Some err; deleteErr])
      | None =>
          let logKey :=
            Sprintf logFileFormatString [ofString backupName; ofString backupName] in
          err <- putObject bucket logKey log ;;
          match err with
          | Some err =>
              glog_Errorf "error uploading %s/%s: %v"
                          [ofString bucket; ofString logKey; ofError err]
          | None => ret tt
          end ;;;
          ret None
      end
  end.

Definition DownloadBackup (bucket backupName : string) : M S (ReadCloser + error) :=
  getObject bucket
    (Sprintf backupFileFormatString [ofString backupName; ofString backupName]).

Definition GetAllBackups_func1 (bucket backupDir : string) (output : list Backup)
  : M S (list Backup * option error) :=
  let key := Sprintf metadataFileFormatString [ofString backupDir] in
  r <- getObject bucket key ;;
  match r with
  | inr err => ret (output, Some err)
  | inl res =>
      defer (closeBody bucket key)
        match ReadAll res with
        | inr err => ret (output, Some err)
        | inl data =>
            match Decode data with
            | inr err => ret (output, Some err)
            | inl obj =>
                match obj with
                | BackupObject backup => ret (output ++ [backup], None)
                | _ =>
                    ret (output,
                         Some (Errorf "unexpected type for %s/%s: %T"
                                      [ofString bucket; ofString key; ofObject obj]))
                end
            end
        end
  end.

Fixpoint GetAllBackups_range (bucket : string) (prefixes : list string)
         (output : list Backup) : M S (option (list Backup) * option error) :=
  match prefixes with
  | [] => ret (Some output, None)
  | backupDir :: prefixes' =>
      r <- GetAllBackups_func1 bucket backupDir output ;;
      match r with
      | (_, Some err) => ret (None, Some err)
      | (output', None) => GetAllBackups_range bucket prefixes' output'
      end
  end.

Definition GetAllBackups (bucket : string) : M S (option (list Backup) * option error) :=
  r <- listCommonPrefixes bucket "/" ;;
  match r with
  | inr err => ret (None, Some err)
  | inl prefixes =>
      if Nat.eqb (List.length prefixes) 0 then ret (Some [], None)
      else GetAllBackups_range bucket prefixes []
  end.

Definition DeleteBackup (bucket backupName : string) : M S (option error) :=
  let errs : list (option error) := [] in
  let key := Sprintf backupFileFormatString [ofString backupName; ofString backupName] in
  glog_V_Infof 4 "Trying to delete bucket=%s, key=%s" [ofString bucket; ofString key] ;;;
  err <- deleteObject bucket key ;;
  let errs := match err with Some _ => errs ++ [err] | None => errs end in
  let key := Sprintf metadataFileFormatString [ofString backupName] in
  glog_V_Infof 4 "Trying to delete bucket=%s, key=%s" [ofString bucket; ofString key] ;;;
  err <- deleteObject bucket key ;;
  let errs := match err with Some _ => errs ++ [err] | None => errs end in
  ret (NewAggregate errs).
End Methods.
End Inlined.

(** ** The cache-backed service *)

(** The [BackupGetter] interface over a state of type [St]. *)
Record BackupGetter (St : Type) : Type := mkBackupGetter {
  getAllBackups : string -> St -> (option (list Backup) * option error) * St
}.
Arguments mkBackupGetter {St} _.
Arguments getAllBackups {St} _ _ _.

(** [var _ BackupGetter = &backupService{}] *)
Definition backupService {S : Type} {adapter : ObjectStorageAdapter S} {decoder : Decoder}
  : BackupGetter (World S) :=
  mkBackupGetter GetAllBackups.

(** [cachedBackupService]: the embedded delegate, whose other methods are
    promoted unchanged, and the cache that answers [GetAllBackups]. The
    delegate works on the state [D], the cache on [St]. *)
Record cachedBackupService (D St : Type) : Type := mkCachedBackupService {
  BackupService : BackupGetter D;
  cache : BackupGetter St
}.
Arguments mkCachedBackupService {D St} _ _.
Arguments BackupService {D St} _.
Arguments cache {D St} _.

Definition cachedBackupService_GetAllBackups {D St} (c : cachedBackupService D St)
           (bucketName : string) : St -> (option (list Backup) * option error) * St :=
  getAllBackups (cache c) bucketName.

(** Modelled from the spec: the cache built by [NewBackupCache]
    (backup_cache.go), which is not among the sources. Following section
    4.3, it holds per bucket the snapshot of the last successful refresh
    (none while uninitialized) and whether its lifecycle context has been
    cancelled. *)
Record backupCache : Type := mkBackupCache {
  snapshots : gmap string (list Backup);
  stopped : bool
}.

Section BackupCache.
Context {S : Type}.
Variable delegate : BackupGetter (World S).

(** The state of a process running the cached service: the world of the
    delegate and the cache's memory. *)
Record CachedWorld : Type := mkCachedWorld {
  world : World S;
  memory : backupCache
}.

(** Modelled from the spec: the cache's read path, "the current snapshot
    ... never blocks on network I/O; never errors", "an empty collection
    before the first successful refresh completes". *)
Definition backupCache_GetAllBackups (bucketName : string) (cw : CachedWorld)
  : (option (list Backup) * option error) * CachedWorld :=
  ((Some (default [] (snapshots (memory cw) !! bucketName)), None), cw).

(** Modelled from the spec: one attempt of the background refresh task,
    "replaced wholesale on each successful refresh"; "if a refresh attempt
    fails ... the existing snapshot is retained and served; the failure is
    reported to an observability channel, not raised to readers"; once
    stopped "the last snapshot ... will never update again". *)
Definition backupCache_refresh (bucketName : string) (cw : CachedWorld) : CachedWorld :=
  if stopped (memory cw) then cw
  else
    let '((backups, err), w') := getAllBackups delegate bucketName (world cw) in
    match err with
    | Some e =>
        mkCachedWorld (snd (glog_Errorf "%v" [ofError e] w')) (memory cw)
    | None =>
        mkCachedWorld w'
          (mkBackupCache (<[bucketName := default [] backups]> (snapshots (memory cw)))
                         false)
    end.

(** Modelled from the spec: cancelling the owning lifecycle context. *)
Definition backupCache_cancel (cw : CachedWorld) : CachedWorld :=
  mkCachedWorld (world cw) (mkBackupCache (snapshots (memory cw)) true).

(** Modelled from the spec: [NewBackupCache(ctx, delegate, resyncPeriod)].
    The cache starts uninitialized. Time is not modelled: the refresh task
    and the context are the environment that issues [backupCache_refresh]
    and [backupCache_cancel], whatever the period. *)
Definition NewBackupCache (resyncPeriod : Duration) : BackupGetter CachedWorld * backupCache :=
  (mkBackupGetter backupCache_GetAllBackups, mkBackupCache ∅ false).

(** The service, and the state of the process once it is built in the
    world [w]. *)
Definition NewBackupServiceWithCachedBackupGetter (resyncPeriod : Duration) (w : World S)
  : cachedBackupService (World S) CachedWorld * CachedWorld :=
  let (getter, mem) := NewBackupCache resyncPeriod in
  (mkCachedBackupService delegate getter, mkCachedWorld w mem).

(** What happens between two reads: refresh attempts of the background
    task, and the cancellation of its context. *)
Inductive Event : Type :=
| Refresh (bucketName : string)
| Cancel.

(** The outcome of a refresh attempt that reached the delegate. *)
Definition Outcome : Type := string * (option (list Backup) * option error).

Definition step (ev : Event) (cw : CachedWorld) : list Outcome * CachedWorld :=
  match ev with
  | Refresh bucketName =>
      (if stopped (memory cw) then []
       else [(bucketName, fst (getAllBackups delegate bucketName (world cw)))],
       backupCache_refresh bucketName cw)
  | Cancel => ([], backupCache_cancel cw)
  end.

Fixpoint run (evs : list Event) (cw : CachedWorld) : list Outcome * CachedWorld :=
  match evs with
  | [] => ([], cw)
  | ev :: evs' =>
      let (o, cw') := step ev cw in
      let (os, cw'') := run evs' cw' in
      (o ++ os, cw'')
  end.

(** The snapshot of the most recent successful refresh of a bucket in a
    history of outcomes (oldest first), [init] if there is none. *)
Fixpoint lastSnapshot (bucketName : string) (history : list Outcome)
         (init : list Backup) : list Backup :=
  match history with
  | [] => init
  | (b, (backups, None)) :: history' =>
      lastSnapshot bucketName history'
        (if String.eqb b bucketName then default [] backups else init)
  | (_, (_, Some _)) :: history' => lastSnapshot bucketName history' init
  end.

(** The failures among the outcomes, as rendered on the log. *)
Definition failureLines (history : list Outcome) : list LogLine :=
  omap (fun o : Outcome =>
          match snd (snd o) with
          | Some e => Some (LogError (Sprintf "%v" [ofError e]))
          | None => None
          end) history.
End BackupCache.

Arguments CachedWorld S : clear implicits.

(** ** What the service relies on from an adapter *)

(** An adapter whose store can be asked whether an object is present, and
    whose successful delete removes the object. The spec leaves open
    whether deleting a missing object fails; nothing is asked here. *)
Class ObjectStore (S : Type) {adapter : ObjectStorageAdapter S} : Type := {
  present : S -> string -> string -> bool;
  DeleteObject_removes : forall bucket key s s',
      DeleteObject bucket key s = (None, s') -> present s' bucket key = false
}.

(** ** An in-memory adapter with injected faults *)

Module Mem.
Inductive Op : Type := OpPut | OpGet | OpRead | OpDelete | OpList.

#[global] Instance Op_eq_dec : EqDecision Op.
Proof. solve_decision. Defined.

(** The objects by (bucket, key), and the error with which an operation
    on a bucket and key (for [OpList]: delimiter) is made to fail. *)
Record Store : Type := mkStore {
  objects : gmap (string * string) string;
  faults : Op -> string -> string -> option error
}.

Definition withObjects (s : Store) (m : gmap (string * string) string) : Store :=
  mkStore m (faults s).

Definition put (bucket key : string) (body : ReadSeeker) (s : Store) : option error * Store :=
  match faults s OpPut bucket key with
  | Some e => (Some e, s)
  | None => (None, withObjects s (<[(bucket, key) := body]> (objects s)))
  end.

Definition get (bucket key : string) (s : Store) : (ReadCloser + error) * Store :=
  match faults s OpGet bucket key with
  | Some e => (inr e, s)
  | None =>
      match objects s !! (bucket, key) with
      | None => (inr (errorString "key not found"), s)
      | Some data =>
          match faults s OpRead bucket key with
          | Some e => (inl (BrokenBody e), s)
          | None => (inl (Body data), s)
          end
      end
  end.

Definition del (bucket key : string) (s : Store) : option error * Store :=
  match faults s OpDelete bucket key with
  | Some e => (Some e, s)
  | None => (None, withObjects s (delete (bucket, key) (objects s)))
  end.

(** The part of [key] before the first [delimiter], if there is one. *)
Definition commonPrefix (delimiter key : string) : option string :=
  match String.index 0 delimiter key with
  | Some n => Some (String.substring 0 n key)
  | None => None
  end.

Definition list (bucket delimiter : string) (s : Store) : (list string + error) * Store :=
  match faults s OpList bucket delimiter with
  | Some e => (inr e, s)
  | None =>
      (inl (remove_dups
              (omap (fun o : string * string * string =>
                       if String.eqb (fst (fst o)) bucket
                       then commonPrefix delimiter (snd (fst o)) else None)
                    (map_to_list (objects s)))), s)
  end.

Definition sign (bucket key : string) (ttl : Duration) (s : Store) : (string + error) * Store :=
  (inl ("mem://" +:+ bucket +:+ "/" +:+ key), s).

#[global] Instance adapter : ObjectStorageAdapter Store := {
  PutObject := put;
  GetObject := get;
  DeleteObject := del;
  ListCommonPrefixes := list;
  CreateSignedURL := sign
}.

Definition has (s : Store) (bucket key : string) : bool :=
  bool_decide (is_Some (objects s !! (bucket, key))).

Lemma del_removes bucket key s s' :
  del bucket key s = (None, s') -> has s' bucket key = false.
Proof.
  unfold del, has. destruct (faults s OpDelete bucket key); [discriminate|].
  intros [= <-]. simpl. rewrite lookup_delete_eq.
  apply bool_decide_eq_false. intros [x Hx]. discriminate.
Qed.

#[global] Instance store : ObjectStore Store := {
  present := has;
  DeleteObject_removes := del_removes
}.

Definition noFaults : Op -> string -> string -> option error := fun _ _ _ => None.

(** Fail [op] on [bucket]/[key] with [e], on top of the faults [f]. *)
Definition failing (op : Op) (bucket key : string) (e : error)
           (f : Op -> string -> string -> option error)
  : Op -> string -> string -> option error :=
  fun op' b k =>
    if bool_decide (op' = op) && String.eqb b bucket && String.eqb k key
    then Some e else f op' b k.

Definition empty : Store := mkStore ∅ noFaults.

Definition start (s : Store) : World Store := mkWorld s [] [].

(** A decoder for the examples: a payload [backup:NAME] is the manifest of
    the backup NAME, a payload [pod:...] decodes to another kind, and
    anything else is rejected. *)
Definition decodeText (data : string) : Object + error :=
  if String.prefix "backup:" data then
    inl (BackupObject (mkBackup (String.substring 7 (String.length data - 7) data)
                        EmptyString EmptyString))
  else if String.prefix "pod:" data then inl (OtherObject "*v1.Pod")
  else inr (errorString "couldn't get version/kind; json parse error").

#[global] Instance decoder : Decoder := { Decode := decodeText }.
End Mem.


(** ** Buckets used to instantiate the properties *)

Module Examples.
Definition diskFull : error := errorString "disk full".
Definition locked : error := errorString "object locked".
Definition denied : error := errorString "access denied".
Definition parseError : error :=
  errorString "couldn't get version/kind; json parse error".

(** An empty bucket where writing the data archive of [nightly] fails. *)
Definition dataWriteFails : Mem.Store :=
  Mem.mkStore ∅ (Mem.failing Mem.OpPut "bkt" "nightly/nightly.tar.gz" diskFull Mem.noFaults).

(** [dataWriteFails] once the metadata object is stored. *)
Definition dataWriteFails1 : Mem.Store :=
  Mem.withObjects dataWriteFails
                  {[ ("bkt", "nightly/ark-backup.json") := "backup:nightly" ]}.

(** The same, where the metadata object cannot be deleted either. *)
Definition rollbackFails : Mem.Store :=
  Mem.mkStore ∅ (Mem.failing Mem.OpDelete "bkt" "nightly/ark-backup.json" locked
                             (Mem.faults dataWriteFails)).

Definition metadataWriteFails : Mem.Store :=
  Mem.mkStore ∅ (Mem.failing Mem.OpPut "bkt" "nightly/ark-backup.json" denied Mem.noFaults).

Definition logWriteFails : Mem.Store :=
  Mem.mkStore ∅ (Mem.failing Mem.OpPut "bkt" "nightly/nightly.log.gz" diskFull Mem.noFaults).

(** [logWriteFails] once the metadata, then the data archive, is stored. *)
Definition logWriteFails1 : Mem.Store :=
  Mem.withObjects logWriteFails
                  {[ ("bkt", "nightly/ark-backup.json") := "backup:nightly" ]}.
Definition logWriteFails2 : Mem.Store :=
  Mem.withObjects logWriteFails
                  (<[ ("bkt", "nightly/nightly.tar.gz") := "tar" ]>
                     (Mem.objects logWriteFails1)).

Definition nightlyObjects : gmap (string * string) string :=
  list_to_map [(("bkt", "nightly/ark-backup.json"), "backup:nightly");
               (("bkt", "nightly/nightly.tar.gz"), "tar");
               (("bkt", "nightly/nightly.log.gz"), "log")].

(** A complete backup whose data archive cannot be deleted. *)
Definition archiveLocked : Mem.Store :=
  Mem.mkStore nightlyObjects
              (Mem.failing Mem.OpDelete "bkt" "nightly/nightly.tar.gz" locked Mem.noFaults).

(** [archiveLocked] once the metadata object is deleted. *)
Definition archiveLocked1 : Mem.Store :=
  Mem.withObjects archiveLocked
                  (delete ("bkt", "nightly/ark-backup.json") nightlyObjects).

(** Two backups, [a] and [b]. *)
Definition twoBackups : Mem.Store :=
  Mem.mkStore (list_to_map [(("bkt", "a/ark-backup.json"), "backup:a");
                            (("bkt", "a/a.tar.gz"), "tar");
                            (("bkt", "b/ark-backup.json"), "backup:b");
                            (("bkt", "b/b.tar.gz"), "tar")])
              (Mem.failing Mem.OpList "down" "/" denied Mem.noFaults).

(** Two candidates; the metadata of [b] is not a manifest. *)
Definition garbled : Mem.Store :=
  Mem.mkStore (list_to_map [(("bkt", "a/ark-backup.json"), "backup:a");
                            (("bkt", "a/a.tar.gz"), "tar");
                            (("bkt", "b/ark-backup.json"), "{truncated");
                            (("bkt", "b/b.tar.gz"), "tar")])
              Mem.noFaults.

(** Two candidates; the metadata object of [b] holds a pod. *)
Definition misfiled : Mem.Store :=
  Mem.mkStore (list_to_map [(("bkt", "a/ark-backup.json"), "backup:a");
                            (("bkt", "a/a.tar.gz"), "tar");
                            (("bkt", "b/ark-backup.json"), "pod:web-0");
                            (("bkt", "b/b.tar.gz"), "tar")])
              Mem.noFaults.

Definition backupA : Backup := mkBackup "a" EmptyString EmptyString.
Definition backupB : Backup := mkBackup "b" EmptyString EmptyString.
End Examples.

(** ** Enumeration, in the spec's words

    What the spec says of a candidate prefix, stated on the adapter's store:
    its metadata object is fetched under the metadata key, read, and decoded
    into a backup record, or one of these steps fails. *)

Section Candidates.
Context {S : Type} {adapter : ObjectStorageAdapter S} {decoder : Decoder}.

(** The candidate [backupDir] fails with [e] on the store [s], leaving
    [s']: fetching, reading or decoding its metadata object fails, or the
    decoded object has the wrong type. *)
Inductive CandidateFails (bucket backupDir : string) (s : S) : error -> S -> Prop :=
| FetchFails e s' :
    GetObject bucket (getMetadataKey backupDir) s = (inr e, s') ->
    CandidateFails bucket backupDir s e s'
| ReadFails res e s' :
    GetObject bucket (getMetadataKey backupDir) s = (inl res, s') ->
    ReadAll res = inr e ->
    CandidateFails bucket backupDir s e s'
| DecodeFails res data e s' :
    GetObject bucket (getMetadataKey backupDir) s = (inl res, s') ->
    ReadAll res = inl data ->
    Decode data = inr e ->
    CandidateFails bucket backupDir s e s'
| WrongType res data ty s' :
    GetObject bucket (getMetadataKey backupDir) s = (inl res, s') ->
    ReadAll res = inl data ->
    Decode data = inl (OtherObject ty) ->
    CandidateFails bucket backupDir s
      (errorString ("unexpected type for " +:+ bucket +:+ "/"
                    +:+ getMetadataKey backupDir +:+ ": " +:+ ty)) s'.

(** The metadata object of the candidate [backupDir] decodes to [b]. *)
Inductive CandidateDecodes (bucket backupDir : string) (s : S) : Backup -> S -> Prop :=
| Decodes res data b s' :
    GetObject bucket (getMetadataKey backupDir) s = (inl res, s') ->
    ReadAll res = inl data ->
    Decode data = inl (BackupObject b) ->
    CandidateDecodes bucket backupDir s b s'.

(** The candidates decode one after the other, each on the store the
    previous one left, to the records of the list, in order. *)
Inductive Decoded (bucket : string) : S -> list string -> list Backup -> S -> Prop :=
| Decoded_nil s : Decoded bucket s [] [] s
| Decoded_cons s backupDir b s' prefixes backups s'' :
    CandidateDecodes bucket backupDir s b s' ->
    Decoded bucket s' prefixes backups s'' ->
    Decoded bucket s (backupDir :: prefixes) (b :: backups) s''.
End Candidates.

(** [sub] occurs in [s]. *)
Fixpoint hasSubstring (sub s : string) : bool :=
  String.prefix sub s
  || match s with
     | EmptyString => false
     | String _ s' => hasSubstring sub s'
     end.

(** The message of [e] names both the bucket and the key. *)
Definition reportsBucketAndKey (bucket key : string) (e : error) : bool :=
  hasSubstring bucket (Error e) && hasSubstring key (Error e).

(** ** The contents of a store

    The contract of an object store as far as the service depends on it,
    on a view of the store as a map from bucket and key to payload. A
    write or delete, also a failed one, touches no other key; reads and
    listings touch nothing; a body that reads to its end is the stored
    payload; a key without an object cannot be fetched. *)
Class ObjectContents (S : Type) {adapter : ObjectStorageAdapter S} : Type := {
  content : S -> string -> string -> option string;
  PutObject_stores : forall bucket key body s s',
      PutObject bucket key body s = (None, s') -> content s' bucket key = Some body;
  PutObject_frame : forall bucket key body s r s' bucket' key',
      PutObject bucket key body s = (r, s') ->
      (bucket', key') <> (bucket, key) ->
      content s' bucket' key' = content s bucket' key';
  DeleteObject_clears : forall bucket key s s',
      DeleteObject bucket key s = (None, s') -> content s' bucket key = None;
  DeleteObject_frame : forall bucket key s r s' bucket' key',
      DeleteObject bucket key s = (r, s') ->
      (bucket', key') <> (bucket, key) ->
      content s' bucket' key' = content s bucket' key';
  GetObject_frame : forall bucket key s r s' bucket' key',
      GetObject bucket key s = (r, s') ->
      content s' bucket' key' = content s bucket' key';
  GetObject_reads : forall bucket key s res s' data,
      GetObject bucket key s = (inl res, s') ->
      ReadAll res = inl data ->
      content s bucket key = Some data;
  GetObject_missing : forall bucket key s,
      content s bucket key = None ->
      exists e, fst (GetObject bucket key s) = inr e;
  ListCommonPrefixes_frame : forall bucket delimiter s r s' bucket' key',
      ListCommonPrefixes bucket delimiter s = (r, s') ->
      content s' bucket' key' = content s bucket' key'
}.

(** The in-memory adapter keeps this contract, whatever faults are
    injected. *)
#[global] Instance Mem_contents : ObjectContents Mem.Store.
Proof.
  refine {| content := fun s bucket key => Mem.objects s !! (bucket, key) |};
    unfold PutObject, DeleteObject, GetObject, ListCommonPrefixes; simpl.
  - intros bucket key body s s'. unfold Mem.put.
    destruct (Mem.faults s Mem.OpPut bucket key); [discriminate|].
    intros [= <-]. simpl. apply lookup_insert_eq.
  - intros bucket key body s r s' bucket' key'. unfold Mem.put.
    destruct (Mem.faults s Mem.OpPut bucket key); intros [= <- <-] Hne;
      [reflexivity|].
    simpl. apply lookup_insert_ne. congruence.
  - intros bucket key s s'. unfold Mem.del.
    destruct (Mem.faults s Mem.OpDelete bucket key); [discriminate|].
    intros [= <-]. simpl. apply lookup_delete_eq.
  - intros bucket key s r s' bucket' key'. unfold Mem.del.
    destruct (Mem.faults s Mem.OpDelete bucket key); intros [= <- <-] Hne;
      [reflexivity|].
    simpl. apply lookup_delete_ne. congruence.
  - intros bucket key s r s' bucket' key'. unfold Mem.get.
    destruct (Mem.faults s Mem.OpGet bucket key); [now intros [= <- <-]|].
    destruct (Mem.objects s !! (bucket, key)); [|now intros [= <- <-]].
    destruct (Mem.faults s Mem.OpRead bucket key); now intros [= <- <-].
  - intros bucket key s res s' data. unfold Mem.get.
    destruct (Mem.faults s Mem.OpGet bucket key); [discriminate|].
    destruct (Mem.objects s !! (bucket, key)) as [d|]; [|discriminate].
    destruct (Mem.faults s Mem.OpRead bucket key); intros [= <- <-]; [discriminate|].
    now intros [= <-].
  - intros bucket key s Hnone. unfold Mem.get.
    destruct (Mem.faults s Mem.OpGet bucket key) as [e|]; [now exists e|].
    rewrite Hnone. now eexists.
  - intros bucket delimiter s r s' bucket' key'. unfold Mem.list.
    destruct (Mem.faults s Mem.OpList bucket delimiter); now intros [= <- <-].
Defined.

(** ** The artifacts of a backup *)

(** The three roles of the objects of a backup, and the key of each. *)
Inductive Role : Type := MetadataRole | DataRole | LogRole.

Definition keyOf (role : Role) (backupName : string) : string :=
  match role with
  | MetadataRole => getMetadataKey backupName
  | DataRole => getBackupKey backupName
  | LogRole => getBackupLogKey backupName
  end.

(** The calls that read the store: listing, fetching, closing a body. *)
Definition readsOnly (c : Call) : bool :=
  match c with
  | CallListCommonPrefixes _ _ | CallGetObject _ _ | CallClose _ _ => true
  | _ => false
  end.

(** The calls [GetAllBackups] makes for a candidate whose body it gets. *)
Definition fetchAndClose (bucket backupDir : string) : list Call :=
  [CallGetObject bucket (getMetadataKey backupDir);
   CallClose bucket (getMetadataKey backupDir)].

(** ** More buckets for the properties *)

Module MoreExamples.
Import Examples.

(** An empty bucket without faults, and the same once [nightly] is
    uploaded to it. *)
Definition uploaded : Mem.Store := Mem.mkStore nightlyObjects Mem.noFaults.

(** [uploaded] once [nightly] is deleted: its log is what remains. *)
Definition deleted : Mem.Store :=
  Mem.mkStore {[ ("bkt", "nightly/nightly.log.gz") := "log" ]} Mem.noFaults.

(** Listing the bucket [bkt] fails. *)
Definition unlistable : Mem.Store :=
  Mem.mkStore nightlyObjects (Mem.failing Mem.OpList "bkt" "/" denied Mem.noFaults).

(** Three candidates; the metadata object of [b] cannot be read to its
    end. *)
Definition brokenRead : Mem.Store :=
  Mem.mkStore (list_to_map [(("bkt", "a/ark-backup.json"), "backup:a");
                            (("bkt", "b/ark-backup.json"), "backup:b");
                            (("bkt", "d/ark-backup.json"), "backup:d")])
              (Mem.failing Mem.OpRead "bkt" "b/ark-backup.json" diskFull Mem.noFaults).
End MoreExamples.

(** * Properties *)

(** ** Strings *)

Lemma append_inv_head (p a b : string) : p +:+ a = p +:+ b -> a = b.
Proof. induction p as [|c p IH]; simpl; [tauto|]. intros [= H]. auto. Qed.

Lemma append_length (a b : string) :
  String.length (a +:+ b) = String.length a + String.length b.
Proof. induction a as [|c a IH]; simpl; [reflexivity|]. now rewrite IH. Qed.

Lemma getMetadataKey_eq (N : string) : getMetadataKey N = N +:+ "/ark-backup.json".
Proof. reflexivity. Qed.

Lemma getBackupKey_eq (N : string) : getBackupKey N = N +:+ "/" +:+ N +:+ ".tar.gz".
Proof. reflexivity. Qed.

Lemma getBackupLogKey_eq (N : string) : getBackupLogKey N = N +:+ "/" +:+ N +:+ ".log.gz".
Proof. reflexivity. Qed.

Lemma getBackupLogKey_not_getBackupKey (N : string) :
  getBackupLogKey N <> getBackupKey N.
Proof.
  rewrite getBackupLogKey_eq, getBackupKey_eq. intros H.
  apply append_inv_head, (append_inv_head "/"), append_inv_head in H.
  discriminate H.
Qed.

Lemma getBackupLogKey_not_getMetadataKey (N : string) :
  getBackupLogKey N <> getMetadataKey N.
Proof.
  rewrite getBackupLogKey_eq, getMetadataKey_eq. intros H.
  apply append_inv_head, (append_inv_head "/") in H.
  assert (Hlen : String.length N = 8).
  { apply (f_equal String.length) in H. rewrite append_length in H.
    cbn in H. lia. }
  do 9 (destruct N as [|? N]; try discriminate Hlen).
  discriminate H.
Qed.

Lemma append_empty_r (a : string) : a +:+ EmptyString = a.
Proof.
  induction a as [|c a IH]; [reflexivity|].
  change (String c (a +:+ EmptyString) = String c a). now rewrite IH.
Qed.

Lemma Sprintf_error_uploading bucket logKey e :
  Sprintf "error uploading %s/%s: %v" [ofString bucket; ofString logKey; ofError e]
  = "error uploading " +:+ bucket +:+ "/" +:+ logKey +:+ ": " +:+ Error e.
Proof. cbn. now rewrite append_empty_r. Qed.

Lemma Sprintf_unexpected_type bucket key (obj : operand) :
  Sprintf "unexpected type for %s/%s: %T" [ofString bucket; ofString key; obj]
  = "unexpected type for " +:+ bucket +:+ "/" +:+ key +:+ ": " +:+ goType obj.
Proof. cbn. now rewrite append_empty_r. Qed.

#[local] Arguments Sprintf : simpl never.

Lemma prefix_append (a b : string) : String.prefix a (a +:+ b) = true.
Proof.
  induction a as [|c a IH]; [now destruct b|].
  change (String c a +:+ b) with (String c (a +:+ b)). cbn.
  destruct (ascii_dec c c); [exact IH|congruence].
Qed.

Lemma hasSubstring_here (sub rest : string) : hasSubstring sub (sub +:+ rest) = true.
Proof.
  assert (H : forall s, hasSubstring sub s
                        = String.prefix sub s
                          || match s with
                             | EmptyString => false
                             | String _ s' => hasSubstring sub s'
                             end) by now destruct s.
  rewrite H, prefix_append. reflexivity.
Qed.

Lemma hasSubstring_skip (sub p s : string) :
  hasSubstring sub s = true -> hasSubstring sub (p +:+ s) = true.
Proof.
  intros H. induction p as [|c p IH]; [exact H|].
  change (String c p +:+ s) with (String c (p +:+ s)). cbn.
  rewrite IH. apply orb_true_r.
Qed.

Lemma unexpected_type_reports (bucket key ty : string) :
  reportsBucketAndKey bucket key
    (errorString ("unexpected type for " +:+ bucket +:+ "/" +:+ key +:+ ": " +:+ ty))
  = true.
Proof.
  unfold reportsBucketAndKey. cbn [Error]. apply andb_true_intro. split.
  - apply hasSubstring_skip, hasSubstring_here.
  - do 3 apply hasSubstring_skip. apply hasSubstring_here.
Qed.

(** ** The three keys *)

(** C9: for every backup name N, also one containing a slash, the key
    functions give N/ark-backup.json for the metadata, N/N.tar.gz for the
    data archive and N/N.log.gz for the log; being functions of N alone they
    give the same keys each time. *)
Theorem key_derivation (N : string) :
  getMetadataKey N = N +:+ "/ark-backup.json"
  /\ getBackupKey N = N +:+ "/" +:+ N +:+ ".tar.gz"
  /\ getBackupLogKey N = N +:+ "/" +:+ N +:+ ".log.gz".
Proof. repeat split. Qed.

Example key_derivation_nested :
  (getMetadataKey "prod/nightly", getBackupKey "prod/nightly", getBackupLogKey "prod/nightly")
  = ("prod/nightly/ark-backup.json", "prod/nightly/prod/nightly.tar.gz",
     "prod/nightly/prod/nightly.log.gz").
Proof. reflexivity. Qed.

(** ** The two revisions agree *)

Section Revisions.
Context {S : Type} {adapter : ObjectStorageAdapter S} {decoder : Decoder}.

Lemma Inlined_UploadBackup bucket backupName metadata backup log :
  Inlined.UploadBackup bucket backupName metadata backup log
  = UploadBackup bucket backupName metadata backup log.
Proof. reflexivity. Qed.

Lemma Inlined_DownloadBackup bucket backupName :
  Inlined.DownloadBackup bucket backupName = DownloadBackup bucket backupName.
Proof. reflexivity. Qed.

Lemma Inlined_GetAllBackups bucket :
  Inlined.GetAllBackups bucket = GetAllBackups bucket.
Proof. reflexivity. Qed.

Lemma Inlined_DeleteBackup bucket backupName :
  Inlined.DeleteBackup bucket backupName = DeleteBackup bucket backupName.
Proof. reflexivity. Qed.
End Revisions.

(** ** Running the service *)

Ltac go_unfold :=
  unfold bind, ret, defer, putObject, getObject, deleteObject, listCommonPrefixes,
    closeBody, glog_Errorf, glog_V_Infof, called in *; simpl in *.

Section UploadAndDelete.
Context {S : Type} {adapter : ObjectStorageAdapter S} {decoder : Decoder}.
Implicit Types (w : World S) (s : S) (e : error).

(** C6: if the metadata write fails, UploadBackup returns the adapter's
    error as it is; the write of the metadata is the only call made on the
    adapter, so the store is the one that failed write left and nothing is
    logged. *)
Theorem UploadBackup_metadata_hard_stop bucket backupName metadata backup log w e s1 :
  PutObject bucket (getMetadataKey backupName) metadata (objectStorage w) = (Some e, s1) ->
  UploadBackup bucket backupName metadata backup log w
  = (Some e,
     mkWorld s1 (calls w ++ [CallPutObject bucket (getMetadataKey backupName) metadata])
             (glog w)).
Proof.
  intros Hput. unfold UploadBackup. go_unfold. rewrite Hput. reflexivity.
Qed.

(** C5: if the metadata write and the data write both succeed, the log
    write is attempted (third and last call) and UploadBackup returns nil
    whether the log write succeeded or not; a failure of the log write
    only adds one error line to the log. *)
Theorem UploadBackup_log_best_effort bucket backupName metadata backup log w s1 s2 s3 r :
  PutObject bucket (getMetadataKey backupName) metadata (objectStorage w) = (None, s1) ->
  PutObject bucket (getBackupKey backupName) backup s1 = (None, s2) ->
  PutObject bucket (getBackupLogKey backupName) log s2 = (r, s3) ->
  UploadBackup bucket backupName metadata backup log w
  = (None,
     mkWorld s3
       (calls w ++ [CallPutObject bucket (getMetadataKey backupName) metadata]
                ++ [CallPutObject bucket (getBackupKey backupName) backup]
                ++ [CallPutObject bucket (getBackupLogKey backupName) log])
       (glog w ++ match r with
                  | Some e =>
                      [LogError ("error uploading " +:+ bucket +:+ "/"
                                 +:+ getBackupLogKey backupName +:+ ": " +:+ Error e)]
                  | None => []
                  end)).
Proof.
  intros Hmeta Hdata Hlog. unfold UploadBackup. go_unfold.
  rewrite Hmeta; simpl. rewrite Hdata; simpl. rewrite Hlog; simpl.
  rewrite <- !app_assoc. simpl.
  destruct r as [e|]; simpl; [now rewrite Sprintf_error_uploading|].
  now rewrite app_nil_r.
Qed.

(** C1: if the metadata write succeeds and the data write fails,
    UploadBackup then deletes the metadata key (third and last call) and
    returns a non-nil error. If that delete succeeds the error holds the
    data-write failure alone and the metadata object is absent from the
    store; if the delete fails too, the error holds both failures, the
    data-write failure first. *)
Theorem UploadBackup_rollback `{!ObjectStore S}
        bucket backupName metadata backup log w e s1 s2 deleteErr s3 :
  PutObject bucket (getMetadataKey backupName) metadata (objectStorage w) = (None, s1) ->
  PutObject bucket (getBackupKey backupName) backup s1 = (Some e, s2) ->
  DeleteObject bucket (getMetadataKey backupName) s2 = (deleteErr, s3) ->
  exists r,
    UploadBackup bucket backupName metadata backup log w
    = (r,
       mkWorld s3
         (calls w ++ [CallPutObject bucket (getMetadataKey backupName) metadata]
                  ++ [CallPutObject bucket (getBackupKey backupName) backup]
                  ++ [CallDeleteObject bucket (getMetadataKey backupName)])
         (glog w))
    /\ r <> None
    /\ (deleteErr = None ->
        r = Some (aggregate [e])
        /\ present s3 bucket (getMetadataKey backupName) = false)
    /\ (forall e', deleteErr = Some e' -> r = Some (aggregate [e; e'])).
Proof.
  intros Hmeta Hdata Hdel.
  exists (NewAggregate [Some e; deleteErr]). split.
  - unfold UploadBackup. go_unfold.
    rewrite Hmeta; simpl. rewrite Hdata; simpl. rewrite Hdel; simpl.
    now rewrite <- !app_assoc.
  - destruct deleteErr as [e'|]; cbn.
    + split; [discriminate|]. split; [discriminate|].
      intros e'' [= <-]. reflexivity.
    + split; [discriminate|]. split; [|discriminate].
      intros _. split; [reflexivity|]. eapply DeleteObject_removes, Hdel.
Qed.

(** C4: DeleteBackup deletes the data-archive key and then the metadata
    key, the second whatever the first returned; these are its only calls
    on the adapter, and neither is a delete of the log key. The failures
    are returned together, in that order, as one aggregate, and the result
    is nil exactly when both deletes succeeded. *)
Theorem DeleteBackup_best_effort bucket backupName w d1 s1 d2 s2 :
  DeleteObject bucket (getBackupKey backupName) (objectStorage w) = (d1, s1) ->
  DeleteObject bucket (getMetadataKey backupName) s1 = (d2, s2) ->
  let attempts := [CallDeleteObject bucket (getBackupKey backupName);
                   CallDeleteObject bucket (getMetadataKey backupName)] in
  exists r w',
    DeleteBackup bucket backupName w = (r, w')
    /\ objectStorage w' = s2
    /\ calls w' = calls w ++ attempts
    /\ ~ In (CallDeleteObject bucket (getBackupLogKey backupName)) attempts
    /\ r = match d1, d2 with
           | Some e1, Some e2 => Some (aggregate [e1; e2])
           | Some e1, None => Some (aggregate [e1])
           | None, Some e2 => Some (aggregate [e2])
           | None, None => None
           end
    /\ (r = None <-> d1 = None /\ d2 = None).
Proof.
  intros Hdata Hmeta attempts.
  unfold DeleteBackup. go_unfold. rewrite Hdata; simpl. rewrite Hmeta; simpl.
  eexists _, _. split; [reflexivity|]. simpl.
  split; [reflexivity|]. split; [now rewrite <- app_assoc|]. split.
  - intros [H|[H|[]]]; injection H as H.
    + now apply (getBackupLogKey_not_getBackupKey backupName).
    + now apply (getBackupLogKey_not_getMetadataKey backupName).
  - destruct d1, d2; cbn; (split; [reflexivity|]);
      split; try discriminate; try tauto; intros [? ?]; discriminate.
Qed.
End UploadAndDelete.

(** ** Enumeration *)

Section Enumeration.
Context {S : Type} {adapter : ObjectStorageAdapter S} {decoder : Decoder}.
Implicit Types (w : World S) (s : S) (e : error).

Lemma func1_fails bucket backupDir output w e s' :
  CandidateFails bucket backupDir (objectStorage w) e s' ->
  exists w', GetAllBackups_func1 bucket backupDir output w = ((output, Some e), w')
             /\ objectStorage w' = s'.
Proof.
  intros H. unfold GetAllBackups_func1, Errorf. go_unfold.
  destruct H as [e s' Hget|res e s' Hget Hread|res data e s' Hget Hread Hdec
                 |res data ty s' Hget Hread Hdec];
    rewrite Hget; simpl; try rewrite Hread; simpl; try rewrite Hdec; simpl;
    try rewrite Sprintf_unexpected_type; simpl; eauto.
Qed.

Lemma func1_decodes bucket backupDir output w b s' :
  CandidateDecodes bucket backupDir (objectStorage w) b s' ->
  exists w', GetAllBackups_func1 bucket backupDir output w = ((output ++ [b], None), w')
             /\ objectStorage w' = s'.
Proof.
  intros [res data b' s'' Hget Hread Hdec]. unfold GetAllBackups_func1. go_unfold.
  rewrite Hget; simpl. rewrite Hread; simpl. rewrite Hdec; simpl. eauto.
Qed.

(** On every store a candidate either fails or decodes. *)
Lemma candidate_cases bucket backupDir s :
  (exists e s', CandidateFails bucket backupDir s e s')
  \/ (exists b s', CandidateDecodes bucket backupDir s b s').
Proof.
  destruct (GetObject bucket (getMetadataKey backupDir) s)
    as [[res|e] s'] eqn:Hget.
  - destruct (ReadAll res) as [data|e] eqn:Hread.
    + destruct (Decode data) as [[b|ty]|e] eqn:Hdec.
      * right. eauto using Decodes.
      * left. eauto using WrongType.
      * left. eauto using DecodeFails.
    + left. eauto using ReadFails.
  - left. eauto using FetchFails.
Qed.

Lemma range_decoded bucket prefixes : forall output w backups s',
  Decoded bucket (objectStorage w) prefixes backups s' ->
  exists w', GetAllBackups_range bucket prefixes output w
             = ((Some (output ++ backups), None), w')
             /\ objectStorage w' = s'.
Proof.
  induction prefixes as [|p prefixes IH]; intros output w backups s' H;
    inversion H as [|? ? b s1 ? backups' ? Hc Hd]; subst; simpl.
  - exists w. now rewrite app_nil_r.
  - destruct (func1_decodes bucket p output w _ _ Hc) as (w1 & Hf & Hs1).
    unfold bind. rewrite Hf. subst.
    destruct (IH (output ++ [b]) w1 _ _ Hd) as (w2 & Hr & Hs2).
    exists w2. now rewrite Hr, <- app_assoc.
Qed.

Lemma range_fails bucket pre p post output w backups s1 e s2 :
  Decoded bucket (objectStorage w) pre backups s1 ->
  CandidateFails bucket p s1 e s2 ->
  fst (GetAllBackups_range bucket (pre ++ p :: post) output w) = (None, Some e).
Proof.
  revert output w backups.
  induction pre as [|q pre IH]; intros output w backups Hpre Hp;
    inversion Hpre as [|? ? b s' ? backups' ? Hc Hd]; subst; simpl.
  - destruct (func1_fails bucket p output w _ _ Hp) as (w1 & Hf & _).
    unfold bind. now rewrite Hf.
  - destruct (func1_decodes bucket q output w _ _ Hc) as (w1 & Hf & Hs1).
    unfold bind. rewrite Hf. subst. eapply IH; eauto.
Qed.

Lemma range_result bucket prefixes : forall output w r err w',
  GetAllBackups_range bucket prefixes output w = ((r, err), w') ->
  match err with
  | Some _ => r = None
  | None => exists backups, r = Some (output ++ backups)
                            /\ Decoded bucket (objectStorage w) prefixes backups
                                       (objectStorage w')
  end.
Proof.
  induction prefixes as [|p prefixes IH]; intros output w r err w' H; simpl in H.
  - injection H as <- <- <-. exists []. rewrite app_nil_r. split; [reflexivity|constructor].
  - unfold bind in H.
    destruct (candidate_cases bucket p (objectStorage w)) as [(e & s' & Hc)|(b & s' & Hc)].
    + destruct (func1_fails bucket p output w _ _ Hc) as (w1 & Hf & _).
      rewrite Hf in H. injection H as <- <- <-. reflexivity.
    + destruct (func1_decodes bucket p output w _ _ Hc) as (w1 & Hf & Hs).
      rewrite Hf in H. apply IH in H. destruct err; [assumption|].
      destruct H as (backups & -> & Hd). exists (b :: backups).
      rewrite <- app_assoc. split; [reflexivity|].
      subst. econstructor; eauto.
Qed.

Lemma Decoded_length bucket s prefixes backups s' :
  Decoded bucket s prefixes backups s' -> length backups = length prefixes.
Proof. induction 1; simpl; congruence. Qed.

Lemma Decoded_Forall2 bucket s prefixes backups s' :
  Decoded bucket s prefixes backups s' ->
  Forall2 (fun backupDir b => exists s1 s2, CandidateDecodes bucket backupDir s1 b s2)
          prefixes backups.
Proof. induction 1; constructor; eauto. Qed.

Lemma GetAllBackups_listed bucket w prefixes s0 :
  ListCommonPrefixes bucket "/" (objectStorage w) = (inl prefixes, s0) ->
  prefixes <> [] ->
  GetAllBackups bucket w
  = GetAllBackups_range bucket prefixes []
      (mkWorld s0 (calls w ++ [CallListCommonPrefixes bucket "/"]) (glog w)).
Proof.
  intros Hlist Hne. unfold GetAllBackups. go_unfold. rewrite Hlist.
  destruct prefixes; [congruence|reflexivity].
Qed.

Lemma GetAllBackups_listed_none bucket w s0 :
  ListCommonPrefixes bucket "/" (objectStorage w) = (inl [], s0) ->
  GetAllBackups bucket w
  = ((Some [], None),
     mkWorld s0 (calls w ++ [CallListCommonPrefixes bucket "/"]) (glog w)).
Proof.
  intros Hlist. unfold GetAllBackups. go_unfold. now rewrite Hlist.
Qed.

Lemma GetAllBackups_not_listed bucket w e s0 :
  ListCommonPrefixes bucket "/" (objectStorage w) = (inr e, s0) ->
  GetAllBackups bucket w
  = ((None, Some e),
     mkWorld s0 (calls w ++ [CallListCommonPrefixes bucket "/"]) (glog w)).
Proof.
  intros Hlist. unfold GetAllBackups. go_unfold. now rewrite Hlist.
Qed.

(** C8: when the listing succeeds with no prefix, GetAllBackups returns an
    empty collection that is not nil, and a nil error. *)
Theorem GetAllBackups_empty_listing bucket w s0 :
  ListCommonPrefixes bucket "/" (objectStorage w) = (inl [], s0) ->
  fst (GetAllBackups bucket w) = (Some [], None).
Proof.
  intros Hlist. unfold GetAllBackups. go_unfold. now rewrite Hlist.
Qed.

Lemma GetAllBackups_error_nil bucket w r e :
  fst (GetAllBackups bucket w) = (r, Some e) -> r = None.
Proof.
  destruct (ListCommonPrefixes bucket "/" (objectStorage w))
    as [[[|p prefixes]|e'] s0] eqn:Hlist.
  - now rewrite (GetAllBackups_listed_none _ _ _ Hlist).
  - rewrite (GetAllBackups_listed _ _ _ _ Hlist) by discriminate. intros H.
    destruct (GetAllBackups_range _ _ _ _) as [[r' err] w'] eqn:Hr in H.
    apply range_result in Hr. simpl in H. injection H as -> ->. exact Hr.
  - rewrite (GetAllBackups_not_listed _ _ _ _ Hlist). now intros [= <- _].
Qed.

Lemma GetAllBackups_first_failure bucket w pre p post s0 backups s1 e s2 :
  ListCommonPrefixes bucket "/" (objectStorage w) = (inl (pre ++ p :: post), s0) ->
  Decoded bucket s0 pre backups s1 ->
  CandidateFails bucket p s1 e s2 ->
  fst (GetAllBackups bucket w) = (None, Some e).
Proof.
  intros Hlist Hpre Hp.
  rewrite (GetAllBackups_listed _ _ _ _ Hlist) by now destruct pre.
  eapply range_fails; [exact Hpre|exact Hp].
Qed.

(** C2: if the candidates listed before a prefix decode and that prefix
    fails (its metadata object cannot be fetched, read or decoded, or
    decodes to another type), GetAllBackups returns that error with a nil
    collection; and whenever GetAllBackups returns an error the collection
    is nil, so the records already decoded are never returned. *)
Theorem GetAllBackups_all_or_nothing bucket w pre p post s0 backups s1 e s2 :
  ListCommonPrefixes bucket "/" (objectStorage w) = (inl (pre ++ p :: post), s0) ->
  Decoded bucket s0 pre backups s1 ->
  CandidateFails bucket p s1 e s2 ->
  fst (GetAllBackups bucket w) = (None, Some e)
  /\ (forall bucket' w' r err,
        fst (GetAllBackups bucket' w') = (r, Some err) -> r = None).
Proof.
  intros Hlist Hpre Hp. split.
  - eapply GetAllBackups_first_failure; eauto.
  - intros bucket' w' r err. apply GetAllBackups_error_nil.
Qed.

(** C7, as amended: when the payload of a candidate decodes to an object
    that is not a backup, GetAllBackups fails with an error whose message
    names the bucket and the metadata key; when the decoder rejects the
    payload, GetAllBackups fails with the decoder's own error, as it is. *)
Theorem GetAllBackups_decode_failure bucket w pre p post s0 backups s1 res s2 data :
  ListCommonPrefixes bucket "/" (objectStorage w) = (inl (pre ++ p :: post), s0) ->
  Decoded bucket s0 pre backups s1 ->
  GetObject bucket (getMetadataKey p) s1 = (inl res, s2) ->
  ReadAll res = inl data ->
  (forall ty, Decode data = inl (OtherObject ty) ->
     exists e, fst (GetAllBackups bucket w) = (None, Some e)
               /\ reportsBucketAndKey bucket (getMetadataKey p) e = true)
  /\ (forall e, Decode data = inr e ->
        fst (GetAllBackups bucket w) = (None, Some e)).
Proof.
  intros Hlist Hpre Hget Hread. split.
  - intros ty Hdec. eexists. split.
    + eapply GetAllBackups_first_failure; eauto using WrongType.
    + apply unexpected_type_reports.
  - intros e Hdec. eapply GetAllBackups_first_failure; eauto using DecodeFails.
Qed.

(** C10: when GetAllBackups succeeds on a listing, the collection is not
    nil and has one record per listed prefix, in the order of the listing:
    the records are the decoded metadata objects of the prefixes, fetched
    one after the other. *)
Theorem GetAllBackups_one_record_per_prefix bucket w prefixes s0 r w' :
  ListCommonPrefixes bucket "/" (objectStorage w) = (inl prefixes, s0) ->
  GetAllBackups bucket w = ((r, None), w') ->
  exists backups,
    r = Some backups
    /\ length backups = length prefixes
    /\ Decoded bucket s0 prefixes backups (objectStorage w')
    /\ Forall2 (fun backupDir b =>
                  exists s1 s2, CandidateDecodes bucket backupDir s1 b s2)
               prefixes backups.
Proof.
  intros Hlist Hrun.
  assert (H : exists backups, r = Some backups
              /\ Decoded bucket s0 prefixes backups (objectStorage w')).
  { destruct prefixes as [|p prefixes].
    - rewrite (GetAllBackups_listed_none _ _ _ Hlist) in Hrun.
      injection Hrun as <- <-. exists []. split; [reflexivity|constructor].
    - rewrite (GetAllBackups_listed _ _ _ _ Hlist) in Hrun by discriminate.
      apply range_result in Hrun. exact Hrun. }
  destruct H as (backups & -> & Hd). exists backups.
  split; [reflexivity|]. split; [exact (Decoded_length _ _ _ _ _ Hd)|].
  split; [exact Hd|]. exact (Decoded_Forall2 _ _ _ _ _ Hd).
Qed.
End Enumeration.

(** ** The cache-backed service *)

Section CachedService.
Context {S : Type} {adapter : ObjectStorageAdapter S} {decoder : Decoder}.
Implicit Types (w : World S) (cw : CachedWorld S).

Lemma func1_glog bucket backupDir output w :
  glog (snd (GetAllBackups_func1 bucket backupDir output w)) = glog w.
Proof.
  unfold GetAllBackups_func1. go_unfold.
  destruct (GetObject _ _ _) as [[res|e] s']; simpl; [|reflexivity].
  destruct (ReadAll res) as [data|e]; simpl; [|reflexivity].
  destruct (Decode data) as [[b|ty]|e]; reflexivity.
Qed.

Lemma range_glog bucket prefixes : forall output w,
  glog (snd (GetAllBackups_range bucket prefixes output w)) = glog w.
Proof.
  induction prefixes as [|p prefixes IH]; intros output w; simpl; [reflexivity|].
  unfold bind.
  pose proof (func1_glog bucket p output w) as Hf.
  destruct (GetAllBackups_func1 bucket p output w) as [[output' [e|]] w1];
    simpl in *; [exact Hf|].
  now rewrite IH.
Qed.

(** Enumeration writes nothing to the log. *)
Lemma GetAllBackups_glog bucket w : glog (snd (GetAllBackups bucket w)) = glog w.
Proof.
  destruct (ListCommonPrefixes bucket "/" (objectStorage w))
    as [[[|p prefixes]|e'] s0] eqn:Hlist.
  - now rewrite (GetAllBackups_listed_none _ _ _ Hlist).
  - rewrite (GetAllBackups_listed _ _ _ _ Hlist) by discriminate.
    now rewrite range_glog.
  - now rewrite (GetAllBackups_not_listed _ _ _ _ Hlist).
Qed.

(** From here on [delegate] is any enumeration that writes nothing to the
    log, as [backupService] does. *)
Variable delegate : BackupGetter (World S).
Hypothesis delegate_glog :
  forall bucketName w, glog (snd (getAllBackups delegate bucketName w)) = glog w.

Lemma step_snapshot ev cw bucketName :
  default [] (snapshots (memory (snd (step delegate ev cw))) !! bucketName)
  = lastSnapshot bucketName (fst (step delegate ev cw))
                 (default [] (snapshots (memory cw) !! bucketName))
  /\ glog (world (snd (step delegate ev cw)))
     = glog (world cw) ++ failureLines (fst (step delegate ev cw)).
Proof.
  destruct ev as [b|]; simpl; [|now rewrite app_nil_r].
  unfold backupCache_refresh.
  destruct (stopped (memory cw)); simpl; [now rewrite app_nil_r|].
  pose proof (delegate_glog b (world cw)) as Hlog.
  destruct (getAllBackups delegate b (world cw)) as [[backups [e|]] w']; simpl in *.
  - now rewrite Hlog.
  - rewrite Hlog, app_nil_r. split; [|reflexivity].
    destruct (String.eqb_spec b bucketName) as [->|Hne].
    + now rewrite lookup_insert_eq.
    + now rewrite lookup_insert_ne.
Qed.

Lemma lastSnapshot_app bucketName h1 : forall h2 init,
  lastSnapshot bucketName (h1 ++ h2) init
  = lastSnapshot bucketName h2 (lastSnapshot bucketName h1 init).
Proof.
  induction h1 as [|[b [backups [e|]]] h1 IH]; intros h2 init; simpl; auto.
Qed.

Lemma failureLines_app (h1 h2 : list Outcome) :
  failureLines (h1 ++ h2) = failureLines h1 ++ failureLines h2.
Proof. unfold failureLines. apply omap_app. Qed.

Lemma run_snapshot evs : forall cw bucketName,
  default [] (snapshots (memory (snd (run delegate evs cw))) !! bucketName)
  = lastSnapshot bucketName (fst (run delegate evs cw))
                 (default [] (snapshots (memory cw) !! bucketName))
  /\ glog (world (snd (run delegate evs cw)))
     = glog (world cw) ++ failureLines (fst (run delegate evs cw)).
Proof.
  induction evs as [|ev evs IH]; intros cw bucketName; simpl.
  - now rewrite app_nil_r.
  - destruct (step_snapshot ev cw bucketName) as [Hs Hl].
    destruct (step delegate ev cw) as [o cw1]. simpl in *.
    destruct (IH cw1 bucketName) as [Hs' Hl'].
    destruct (run delegate evs cw1) as [os cw2]. simpl in *.
    rewrite lastSnapshot_app, failureLines_app, Hs', Hl', Hs, Hl.
    now rewrite app_assoc.
Qed.

Lemma lastSnapshot_no_success bucketName history : forall init,
  Forall (fun o : Outcome => fst o = bucketName -> snd (snd o) <> None) history ->
  lastSnapshot bucketName history init = init.
Proof.
  induction history as [|[b [backups [e|]]] history IH]; intros init H;
    inversion H as [|? ? Ho Hrest]; subst; simpl; auto.
  destruct (String.eqb_spec b bucketName) as [->|Hne]; [|auto].
  now destruct Ho.
Qed.

(** C3: on the service built by NewBackupServiceWithCachedBackupGetter,
    after any sequence of refresh attempts and cancellations, GetAllBackups
    returns a nil error and leaves the state as it is; the collection is
    the snapshot of the most recent successful refresh of that bucket, and
    the empty collection when no refresh of it has succeeded; every failed
    refresh has added its error to the log and nothing else has. *)
Theorem cached_GetAllBackups_never_errors resyncPeriod w (evs : list Event) bucketName :
  let svc := fst (NewBackupServiceWithCachedBackupGetter delegate resyncPeriod w) in
  let start := snd (NewBackupServiceWithCachedBackupGetter delegate resyncPeriod w) in
  let history := fst (run delegate evs start) in
  let cw := snd (run delegate evs start) in
  cachedBackupService_GetAllBackups svc bucketName cw
  = ((Some (lastSnapshot bucketName history []), None), cw)
  /\ (Forall (fun o : Outcome => fst o = bucketName -> snd (snd o) <> None) history ->
      lastSnapshot bucketName history [] = [])
  /\ glog (world cw) = glog w ++ failureLines history.
Proof.
  intros svc start history cw.
  destruct (run_snapshot evs start bucketName) as [Hs Hl].
  fold cw history in Hs, Hl. split; [|split].
  - unfold cachedBackupService_GetAllBackups, svc. simpl.
    unfold backupCache_GetAllBackups. rewrite Hs. simpl.
    now rewrite lookup_empty.
  - apply lastSnapshot_no_success.
  - exact Hl.
Qed.
End CachedService.

(** ** The properties on the in-memory adapter *)

Import Examples.

Lemma UploadBackup_metadata_hard_stop_witness :
  PutObject "bkt" (getMetadataKey "nightly") "backup:nightly" metadataWriteFails
  = (Some denied, metadataWriteFails)
  /\ UploadBackup "bkt" "nightly" "backup:nightly" "tar" "log" (Mem.start metadataWriteFails)
     = (Some denied,
        mkWorld metadataWriteFails
                [CallPutObject "bkt" "nightly/ark-backup.json" "backup:nightly"] []).
Proof.
  split; [reflexivity|].
  apply (UploadBackup_metadata_hard_stop
           "bkt" "nightly" "backup:nightly" "tar" "log" (Mem.start metadataWriteFails)).
  reflexivity.
Defined.

Lemma UploadBackup_log_best_effort_witness :
  PutObject "bkt" (getMetadataKey "nightly") "backup:nightly" logWriteFails
  = (None, logWriteFails1)
  /\ PutObject "bkt" (getBackupKey "nightly") "tar" logWriteFails1 = (None, logWriteFails2)
  /\ PutObject "bkt" (getBackupLogKey "nightly") "log" logWriteFails2
     = (Some diskFull, logWriteFails2)
  /\ UploadBackup "bkt" "nightly" "backup:nightly" "tar" "log" (Mem.start logWriteFails)
     = (None,
        mkWorld logWriteFails2
                [CallPutObject "bkt" "nightly/ark-backup.json" "backup:nightly";
                 CallPutObject "bkt" "nightly/nightly.tar.gz" "tar";
                 CallPutObject "bkt" "nightly/nightly.log.gz" "log"]
                [LogError "error uploading bkt/nightly/nightly.log.gz: disk full"]).
Proof.
  assert (H1 : PutObject "bkt" (getMetadataKey "nightly") "backup:nightly" logWriteFails
               = (None, logWriteFails1)) by reflexivity.
  assert (H2 : PutObject "bkt" (getBackupKey "nightly") "tar" logWriteFails1
               = (None, logWriteFails2)) by reflexivity.
  assert (H3 : PutObject "bkt" (getBackupLogKey "nightly") "log" logWriteFails2
               = (Some diskFull, logWriteFails2)) by reflexivity.
  split; [exact H1|]. split; [exact H2|]. split; [exact H3|].
  exact (UploadBackup_log_best_effort
           "bkt" "nightly" "backup:nightly" "tar" "log" (Mem.start logWriteFails)
           _ _ _ (Some diskFull) H1 H2 H3).
Defined.

Lemma UploadBackup_rollback_witness :
  PutObject "bkt" (getMetadataKey "nightly") "backup:nightly" dataWriteFails
  = (None, dataWriteFails1)
  /\ PutObject "bkt" (getBackupKey "nightly") "tar" dataWriteFails1
     = (Some diskFull, dataWriteFails1)
  /\ DeleteObject "bkt" (getMetadataKey "nightly") dataWriteFails1 = (None, dataWriteFails)
  /\ exists r,
      UploadBackup "bkt" "nightly" "backup:nightly" "tar" "log" (Mem.start dataWriteFails)
      = (r,
         mkWorld dataWriteFails
           ([] ++ [CallPutObject "bkt" (getMetadataKey "nightly") "backup:nightly"]
               ++ [CallPutObject "bkt" (getBackupKey "nightly") "tar"]
               ++ [CallDeleteObject "bkt" (getMetadataKey "nightly")])
           [])
      /\ r <> None
      /\ (@None error = None ->
          r = Some (aggregate [diskFull])
          /\ present dataWriteFails "bkt" (getMetadataKey "nightly") = false)
      /\ (forall e', None = Some e' -> r = Some (aggregate [diskFull; e'])).
Proof.
  assert (H1 : PutObject "bkt" (getMetadataKey "nightly") "backup:nightly" dataWriteFails
               = (None, dataWriteFails1)) by reflexivity.
  assert (H2 : PutObject "bkt" (getBackupKey "nightly") "tar" dataWriteFails1
               = (Some diskFull, dataWriteFails1)) by reflexivity.
  assert (H3 : DeleteObject "bkt" (getMetadataKey "nightly") dataWriteFails1
               = (None, dataWriteFails)) by reflexivity.
  split; [exact H1|]. split; [exact H2|]. split; [exact H3|].
  exact (UploadBackup_rollback
           "bkt" "nightly" "backup:nightly" "tar" "log" (Mem.start dataWriteFails)
           diskFull _ _ None _ H1 H2 H3).
Defined.

Example UploadBackup_rollback_fails :
  UploadBackup "bkt" "nightly" "backup:nightly" "tar" "log" (Mem.start rollbackFails)
  = (Some (aggregate [diskFull; locked]),
     mkWorld (Mem.withObjects rollbackFails
                {[ ("bkt", "nightly/ark-backup.json") := "backup:nightly" ]})
             [CallPutObject "bkt" "nightly/ark-backup.json" "backup:nightly";
              CallPutObject "bkt" "nightly/nightly.tar.gz" "tar";
              CallDeleteObject "bkt" "nightly/ark-backup.json"]
             []).
Proof. reflexivity. Qed.

Lemma DeleteBackup_best_effort_witness :
  DeleteObject "bkt" (getBackupKey "nightly") archiveLocked = (Some locked, archiveLocked)
  /\ DeleteObject "bkt" (getMetadataKey "nightly") archiveLocked = (None, archiveLocked1)
  /\ exists r w',
      DeleteBackup "bkt" "nightly" (Mem.start archiveLocked) = (r, w')
      /\ objectStorage w' = archiveLocked1
      /\ calls w' = [] ++ [CallDeleteObject "bkt" (getBackupKey "nightly");
                           CallDeleteObject "bkt" (getMetadataKey "nightly")]
      /\ ~ In (CallDeleteObject "bkt" (getBackupLogKey "nightly"))
              [CallDeleteObject "bkt" (getBackupKey "nightly");
               CallDeleteObject "bkt" (getMetadataKey "nightly")]
      /\ r = Some (aggregate [locked])
      /\ (r = None <-> Some locked = None /\ @None error = None).
Proof.
  assert (H1 : DeleteObject "bkt" (getBackupKey "nightly") archiveLocked
               = (Some locked, archiveLocked)) by reflexivity.
  assert (H2 : DeleteObject "bkt" (getMetadataKey "nightly") archiveLocked
               = (None, archiveLocked1)) by reflexivity.
  split; [exact H1|]. split; [exact H2|].
  exact (DeleteBackup_best_effort "bkt" "nightly" (Mem.start archiveLocked) _ _ _ _ H1 H2).
Defined.

Example DeleteBackup_keeps_log :
  Mem.objects (objectStorage (snd (DeleteBackup "bkt" "nightly" (Mem.start archiveLocked))))
  !! ("bkt", "nightly/nightly.log.gz") = Some "log".
Proof. reflexivity. Qed.

Lemma GetAllBackups_empty_listing_witness :
  ListCommonPrefixes "bkt" "/" Mem.empty = (inl [], Mem.empty)
  /\ fst (GetAllBackups "bkt" (Mem.start Mem.empty)) = (Some [], None).
Proof.
  assert (H : ListCommonPrefixes "bkt" "/" Mem.empty = (inl [], Mem.empty)) by reflexivity.
  split; [exact H|].
  exact (GetAllBackups_empty_listing "bkt" (Mem.start Mem.empty) _ H).
Defined.

Lemma candidate_a_decodes (s : Mem.Store) :
  Mem.get "bkt" "a/ark-backup.json" s = (inl (Body "backup:a"), s) ->
  Decoded "bkt" s ["a"] [backupA] s.
Proof.
  intros H. econstructor; [|constructor].
  econstructor; [exact H|reflexivity|reflexivity].
Qed.

Lemma GetAllBackups_all_or_nothing_witness :
  ListCommonPrefixes "bkt" "/" garbled = (inl (["a"] ++ "b" :: []), garbled)
  /\ Decoded "bkt" garbled ["a"] [backupA] garbled
  /\ CandidateFails "bkt" "b" garbled parseError garbled
  /\ fst (GetAllBackups "bkt" (Mem.start garbled)) = (None, Some parseError)
  /\ (forall bucket' (w' : World Mem.Store) r err,
        fst (GetAllBackups bucket' w') = (r, Some err) -> r = None).
Proof.
  assert (H1 : ListCommonPrefixes "bkt" "/" garbled = (inl (["a"] ++ "b" :: []), garbled))
    by reflexivity.
  assert (H2 : Decoded "bkt" garbled ["a"] [backupA] garbled)
    by (apply candidate_a_decodes; reflexivity).
  assert (H3 : CandidateFails "bkt" "b" garbled parseError garbled)
    by (eapply DecodeFails; reflexivity).
  split; [exact H1|]. split; [exact H2|]. split; [exact H3|].
  exact (GetAllBackups_all_or_nothing "bkt" (Mem.start garbled) _ _ _ _ _ _ _ _ H1 H2 H3).
Defined.

Lemma GetAllBackups_decode_failure_witness :
  ListCommonPrefixes "bkt" "/" misfiled = (inl (["a"] ++ "b" :: []), misfiled)
  /\ Decoded "bkt" misfiled ["a"] [backupA] misfiled
  /\ GetObject "bkt" (getMetadataKey "b") misfiled = (inl (Body "pod:web-0"), misfiled)
  /\ ReadAll (Body "pod:web-0") = inl "pod:web-0"
  /\ (forall ty, Decode "pod:web-0" = inl (OtherObject ty) ->
        exists e, fst (GetAllBackups "bkt" (Mem.start misfiled)) = (None, Some e)
                  /\ reportsBucketAndKey "bkt" (getMetadataKey "b") e = true)
  /\ (forall e, Decode "pod:web-0" = inr e ->
        fst (GetAllBackups "bkt" (Mem.start misfiled)) = (None, Some e)).
Proof.
  assert (H1 : ListCommonPrefixes "bkt" "/" misfiled = (inl (["a"] ++ "b" :: []), misfiled))
    by reflexivity.
  assert (H2 : Decoded "bkt" misfiled ["a"] [backupA] misfiled)
    by (apply candidate_a_decodes; reflexivity).
  assert (H3 : GetObject "bkt" (getMetadataKey "b") misfiled
               = (inl (Body "pod:web-0"), misfiled)) by reflexivity.
  assert (H4 : ReadAll (Body "pod:web-0") = inl "pod:web-0") by reflexivity.
  split; [exact H1|]. split; [exact H2|]. split; [exact H3|]. split; [exact H4|].
  exact (GetAllBackups_decode_failure
           "bkt" (Mem.start misfiled) _ _ _ _ _ _ _ _ _ H1 H2 H3 H4).
Defined.

Example GetAllBackups_wrong_type :
  fst (GetAllBackups "bkt" (Mem.start misfiled))
  = (None, Some (errorString "unexpected type for bkt/b/ark-backup.json: *v1.Pod")).
Proof. reflexivity. Qed.

(** Against C7 as stated: the metadata object of [b] in [garbled] is
    present and is rejected by the decoder; GetAllBackups returns the
    decoder's error, whose message names neither the bucket nor the key. *)
Lemma GetAllBackups_decode_error_lacks_context :
  GetObject "bkt" (getMetadataKey "b") garbled = (inl (Body "{truncated"), garbled)
  /\ Decode "{truncated" = inr parseError
  /\ fst (GetAllBackups "bkt" (Mem.start garbled)) = (None, Some parseError)
  /\ hasSubstring "bkt" (Error parseError) = false
  /\ hasSubstring (getMetadataKey "b") (Error parseError) = false
  /\ reportsBucketAndKey "bkt" (getMetadataKey "b") parseError = false.
Proof. repeat split. Qed.

Lemma GetAllBackups_one_record_per_prefix_witness :
  ListCommonPrefixes "bkt" "/" twoBackups = (inl ["a"; "b"], twoBackups)
  /\ GetAllBackups "bkt" (Mem.start twoBackups)
     = ((Some [backupA; backupB], None),
        mkWorld twoBackups
                [CallListCommonPrefixes "bkt" "/";
                 CallGetObject "bkt" "a/ark-backup.json"; CallClose "bkt" "a/ark-backup.json";
                 CallGetObject "bkt" "b/ark-backup.json"; CallClose "bkt" "b/ark-backup.json"]
                [])
  /\ exists backups,
      Some [backupA; backupB] = Some backups
      /\ length backups = length ["a"; "b"]
      /\ Decoded "bkt" twoBackups ["a"; "b"] backups twoBackups
      /\ Forall2 (fun backupDir b =>
                    exists s1 s2 : Mem.Store, CandidateDecodes "bkt" backupDir s1 b s2)
                 ["a"; "b"] backups.
Proof.
  assert (H1 : ListCommonPrefixes "bkt" "/" twoBackups = (inl ["a"; "b"], twoBackups))
    by reflexivity.
  assert (H2 : GetAllBackups "bkt" (Mem.start twoBackups)
               = ((Some [backupA; backupB], None),
                  mkWorld twoBackups
                    [CallListCommonPrefixes "bkt" "/";
                     CallGetObject "bkt" "a/ark-backup.json";
                     CallClose "bkt" "a/ark-backup.json";
                     CallGetObject "bkt" "b/ark-backup.json";
                     CallClose "bkt" "b/ark-backup.json"]
                    [])) by (vm_compute; reflexivity).
  split; [exact H1|]. split; [exact H2|].
  exact (GetAllBackups_one_record_per_prefix
           "bkt" (Mem.start twoBackups) _ _ _ _ H1 H2).
Defined.

Lemma cached_GetAllBackups_never_errors_witness :
  (forall bucketName (w : World Mem.Store),
      glog (snd (getAllBackups backupService bucketName w)) = glog w)
  /\ cachedBackupService_GetAllBackups
       (fst (NewBackupServiceWithCachedBackupGetter backupService 30%Z (Mem.start twoBackups)))
       "bkt"
       (snd (run backupService [Refresh "bkt"; Refresh "down"; Cancel; Refresh "bkt"]
                 (snd (NewBackupServiceWithCachedBackupGetter
                         backupService 30%Z (Mem.start twoBackups)))))
     = ((Some [backupA; backupB], None),
        snd (run backupService [Refresh "bkt"; Refresh "down"; Cancel; Refresh "bkt"]
                 (snd (NewBackupServiceWithCachedBackupGetter
                         backupService 30%Z (Mem.start twoBackups)))))
  /\ glog (world
             (snd (run backupService [Refresh "bkt"; Refresh "down"; Cancel; Refresh "bkt"]
                       (snd (NewBackupServiceWithCachedBackupGetter
                               backupService 30%Z (Mem.start twoBackups))))))
     = [LogError "access denied"].
Proof.
  assert (H : forall bucketName (w : World Mem.Store),
             glog (snd (getAllBackups backupService bucketName w)) = glog w)
    by exact GetAllBackups_glog.
  split; [exact H|].
  destruct (cached_GetAllBackups_never_errors
              backupService H 30%Z (Mem.start twoBackups)
              [Refresh "bkt"; Refresh "down"; Cancel; Refresh "bkt"] "bkt")
    as (Hread & _ & Hlog).
  split; [exact Hread|exact Hlog].
Defined.

Example cached_GetAllBackups_failed_refresh :
  fst (cachedBackupService_GetAllBackups
         (fst (NewBackupServiceWithCachedBackupGetter backupService 30%Z (Mem.start twoBackups)))
         "down"
         (snd (run backupService [Refresh "bkt"; Refresh "down"]
                   (snd (NewBackupServiceWithCachedBackupGetter
                           backupService 30%Z (Mem.start twoBackups))))))
  = (Some [], None).
Proof. reflexivity. Qed.

(** * Further properties of the service *)

(** ** No two artifacts share a key *)

Lemma append_assoc_r (a b c : string) : (a +:+ b) +:+ c = a +:+ (b +:+ c).
Proof.
  induction a as [|x a IH]; [reflexivity|].
  change (String x ((a +:+ b) +:+ c) = String x (a +:+ (b +:+ c))). now rewrite IH.
Qed.

Lemma append_inv_same_tail (a b s t : string) :
  String.length s = String.length t -> a +:+ s = b +:+ t -> a = b /\ s = t.
Proof.
  revert b. induction a as [|x a IH]; intros [|y b] Hlen H.
  - now split.
  - change (s = String y (b +:+ t)) in H. subst s.
    cbn in Hlen. rewrite append_length in Hlen. lia.
  - change (String x (a +:+ s) = t) in H. subst t.
    cbn in Hlen. rewrite append_length in Hlen. lia.
  - change (String x (a +:+ s) = String y (b +:+ t)) in H. injection H as -> H.
    destruct (IH b Hlen H) as [-> ->]. now split.
Qed.

Lemma append_inv_same_head (a b s t : string) :
  String.length a = String.length b -> a +:+ s = b +:+ t -> a = b /\ s = t.
Proof.
  revert b. induction a as [|x a IH]; intros [|y b] Hlen H; try discriminate Hlen.
  - now split.
  - change (String x (a +:+ s) = String y (b +:+ t)) in H. injection H as -> H.
    injection Hlen as Hlen. destruct (IH b Hlen H) as [-> ->]. now split.
Qed.

(** A name is determined by a key made of the name, a slash, the name
    again and a suffix of a given length. *)
Lemma doubled_name_inv (N M suffix suffix' : string) :
  String.length suffix = String.length suffix' ->
  N +:+ "/" +:+ N +:+ suffix = M +:+ "/" +:+ M +:+ suffix' ->
  N = M /\ suffix = suffix'.
Proof.
  intros Hlen H.
  assert (HNM : String.length N = String.length M).
  { apply (f_equal String.length) in H. rewrite !append_length in H.
    cbn in H. lia. }
  destruct (append_inv_same_head _ _ _ _ HNM H) as [-> H'].
  apply (append_inv_head "/"), append_inv_head in H'. now split.
Qed.

Lemma keyOf_inv (r1 r2 : Role) (N1 N2 : string) :
  keyOf r1 N1 = keyOf r2 N2 -> r1 = r2 /\ N1 = N2.
Proof.
  assert (Hmeta : forall N, getMetadataKey N = (N +:+ "/ark-back") +:+ "up.json")
    by (intros N; now rewrite append_assoc_r).
  assert (Hdata : forall N suffix,
             N +:+ "/" +:+ N +:+ suffix = (N +:+ "/" +:+ N) +:+ suffix)
    by (intros N suffix; now rewrite !append_assoc_r).
  destruct r1, r2; cbn [keyOf]; intros H.
  - rewrite !getMetadataKey_eq in H.
    apply append_inv_same_tail in H; [|reflexivity]. now destruct H as [-> _].
  - rewrite Hmeta, getBackupKey_eq, Hdata in H.
    apply append_inv_same_tail in H; [|reflexivity]. now destruct H as [_ [=]].
  - rewrite Hmeta, getBackupLogKey_eq, Hdata in H.
    apply append_inv_same_tail in H; [|reflexivity]. now destruct H as [_ [=]].
  - rewrite Hmeta, getBackupKey_eq, Hdata in H.
    apply append_inv_same_tail in H; [|reflexivity]. now destruct H as [_ [=]].
  - rewrite !getBackupKey_eq in H.
    apply doubled_name_inv in H; [|reflexivity]. now destruct H as [-> _].
  - rewrite getBackupKey_eq, getBackupLogKey_eq in H.
    apply doubled_name_inv in H; [|reflexivity]. now destruct H as [_ [=]].
  - rewrite Hmeta, getBackupLogKey_eq, Hdata in H.
    apply append_inv_same_tail in H; [|reflexivity]. now destruct H as [_ [=]].
  - rewrite getBackupKey_eq, getBackupLogKey_eq in H.
    apply doubled_name_inv in H; [|reflexivity]. now destruct H as [_ [=]].
  - rewrite !getBackupLogKey_eq in H.
    apply doubled_name_inv in H; [|reflexivity]. now destruct H as [-> _].
Qed.

(** X1: the keys of two artifacts are equal only if they are the same
    artifact of the same backup: metadata, data archive and log of all
    backup names, also of names containing slashes or ending like a key,
    never collide. *)
Theorem keyOf_injective (r1 r2 : Role) (N1 N2 : string) :
  (r1, N1) <> (r2, N2) -> keyOf r1 N1 <> keyOf r2 N2.
Proof.
  intros Hne H. apply keyOf_inv in H. destruct H as [-> ->]. now apply Hne.
Qed.

Lemma keyOf_injective_witness :
  (DataRole, "a") <> (MetadataRole, "a/a.tar.gz")
  /\ keyOf DataRole "a" <> keyOf MetadataRole "a/a.tar.gz".
Proof.
  assert (H : (DataRole, "a") <> (MetadataRole, "a/a.tar.gz")) by discriminate.
  split; [exact H|]. exact (keyOf_injective DataRole MetadataRole "a" "a/a.tar.gz" H).
Defined.

(** ** Upload, download and delete on the contents of the store *)

Section Contents.
Context {S : Type} {adapter : ObjectStorageAdapter S} {decoder : Decoder}
        {contents : ObjectContents S}.
Implicit Types (w : World S) (s : S) (e : error).

(** [UploadBackup] as the sequence of its adapter calls. *)
Lemma UploadBackup_unfold bucket backupName metadata backup log w :
  UploadBackup bucket backupName metadata backup log w
  = let (r1, s1) := PutObject bucket (getMetadataKey backupName) metadata (objectStorage w) in
    let c1 := calls w ++ [CallPutObject bucket (getMetadataKey backupName) metadata] in
    match r1 with
    | Some e => (Some e, mkWorld s1 c1 (glog w))
    | None =>
        let (r2, s2) := PutObject bucket (getBackupKey backupName) backup s1 in
        let c2 := c1 ++ [CallPutObject bucket (getBackupKey backupName) backup] in
        match r2 with
        | Some e =>
            let (r3, s3) := DeleteObject bucket (getMetadataKey backupName) s2 in
            (NewAggregate [Some e; r3],
             mkWorld s3 (c2 ++ [CallDeleteObject bucket (getMetadataKey backupName)]) (glog w))
        | None =>
            let (r3, s3) := PutObject bucket (getBackupLogKey backupName) log s2 in
            (None,
             mkWorld s3 (c2 ++ [CallPutObject bucket (getBackupLogKey backupName) log])
                     (glog w ++ match r3 with
                                | Some e =>
                                    [LogError (Sprintf "error uploading %s/%s: %v"
                                                 [ofString bucket;
                                                  ofString (getBackupLogKey backupName);
                                                  ofError e])]
                                | None => []
                                end))
        end
    end.
Proof.
  unfold UploadBackup. go_unfold.
  destruct (PutObject bucket (getMetadataKey backupName) metadata (objectStorage w))
    as [[e|] s1]; simpl; [reflexivity|].
  destruct (PutObject bucket (getBackupKey backupName) backup s1) as [[e|] s2]; simpl.
  - now destruct (DeleteObject bucket (getMetadataKey backupName) s2) as [r3 s3].
  - destruct (PutObject bucket (getBackupLogKey backupName) log s2) as [[e|] s3];
      simpl; [reflexivity|]. now rewrite app_nil_r.
Qed.

(** [DeleteBackup] as the sequence of its adapter calls. *)
Lemma DeleteBackup_unfold bucket backupName w :
  exists lines,
    DeleteBackup bucket backupName w
    = let (d1, s1) := DeleteObject bucket (getBackupKey backupName) (objectStorage w) in
      let (d2, s2) := DeleteObject bucket (getMetadataKey backupName) s1 in
      (NewAggregate [d1; d2],
       mkWorld s2
               (calls w ++ [CallDeleteObject bucket (getBackupKey backupName);
                            CallDeleteObject bucket (getMetadataKey backupName)])
               (glog w ++ lines)).
Proof.
  eexists. unfold DeleteBackup. go_unfold.
  destruct (DeleteObject bucket (getBackupKey backupName) (objectStorage w)) as [d1 s1].
  simpl.
  destruct (DeleteObject bucket (getMetadataKey backupName) s1) as [d2 s2]. simpl.
  rewrite <- !app_assoc. simpl.
  destruct d1, d2; reflexivity.
Qed.

Lemma NewAggregate_some e r : NewAggregate [Some e; r] <> None.
Proof. destruct r; discriminate. Qed.

Lemma NewAggregate_pair_nil d1 d2 : NewAggregate [d1; d2] = None -> d1 = None /\ d2 = None.
Proof. destruct d1, d2; try discriminate. now split. Qed.

Lemma app_singleton_neq {A} (l : list A) (x : A) : l ++ [x] <> l.
Proof.
  intros H. apply (f_equal (@length A)) in H. rewrite length_app in H. simpl in H. lia.
Qed.

(** X2: UploadBackup returns nil exactly when the metadata write and, on
    the store it leaves, the data-archive write both succeed; neither the
    log write nor the compensating delete has a say. *)
Theorem UploadBackup_nil_iff bucket backupName metadata backup log w :
  fst (UploadBackup bucket backupName metadata backup log w) = None
  <-> exists s1 s2,
      PutObject bucket (getMetadataKey backupName) metadata (objectStorage w) = (None, s1)
      /\ PutObject bucket (getBackupKey backupName) backup s1 = (None, s2).
Proof.
  rewrite UploadBackup_unfold.
  destruct (PutObject bucket (getMetadataKey backupName) metadata (objectStorage w))
    as [[e|] s1]; simpl.
  - split; [discriminate|]. now intros (? & ? & [=] & _).
  - destruct (PutObject bucket (getBackupKey backupName) backup s1) as [[e|] s2] eqn:H2;
      simpl.
    + destruct (DeleteObject bucket (getMetadataKey backupName) s2) as [r3 s3]. simpl.
      split; [intros H; now apply NewAggregate_some in H|].
      intros (? & ? & [= <-] & H). rewrite H2 in H. discriminate.
    + destruct (PutObject bucket (getBackupLogKey backupName) log s2) as [r3 s3]. simpl.
      split; [|reflexivity]. intros _. exists s1, s2. now split.
Qed.

Lemma UploadBackup_frame_key bucket backupName metadata backup log w bucket' key' :
  (forall role, (bucket', key') <> (bucket, keyOf role backupName)) ->
  content (objectStorage (snd (UploadBackup bucket backupName metadata backup log w)))
          bucket' key'
  = content (objectStorage w) bucket' key'.
Proof.
  intros Hne. pose proof (Hne MetadataRole) as Hm. pose proof (Hne DataRole) as Hd.
  pose proof (Hne LogRole) as Hl. cbn [keyOf] in *.
  rewrite UploadBackup_unfold.
  destruct (PutObject bucket (getMetadataKey backupName) metadata (objectStorage w))
    as [r1 s1] eqn:H1.
  pose proof (PutObject_frame _ _ _ _ _ _ _ _ H1 Hm) as F1.
  destruct r1 as [e|]; simpl; [exact F1|].
  destruct (PutObject bucket (getBackupKey backupName) backup s1) as [r2 s2] eqn:H2.
  pose proof (PutObject_frame _ _ _ _ _ _ _ _ H2 Hd) as F2.
  destruct r2 as [e|]; simpl.
  - destruct (DeleteObject bucket (getMetadataKey backupName) s2) as [r3 s3] eqn:H3.
    pose proof (DeleteObject_frame _ _ _ _ _ _ _ H3 Hm) as F3. simpl. congruence.
  - destruct (PutObject bucket (getBackupLogKey backupName) log s2) as [r3 s3] eqn:H3.
    pose proof (PutObject_frame _ _ _ _ _ _ _ _ H3 Hl) as F3. simpl. congruence.
Qed.

Lemma DeleteBackup_frame_key bucket backupName w bucket' key' :
  (bucket', key') <> (bucket, getBackupKey backupName) ->
  (bucket', key') <> (bucket, getMetadataKey backupName) ->
  content (objectStorage (snd (DeleteBackup bucket backupName w))) bucket' key'
  = content (objectStorage w) bucket' key'.
Proof.
  intros Hd Hm. destruct (DeleteBackup_unfold bucket backupName w) as [lines ->].
  destruct (DeleteObject bucket (getBackupKey backupName) (objectStorage w))
    as [d1 s1] eqn:H1.
  destruct (DeleteObject bucket (getMetadataKey backupName) s1) as [d2 s2] eqn:H2.
  simpl.
  rewrite (DeleteObject_frame _ _ _ _ _ _ _ H2 Hm).
  exact (DeleteObject_frame _ _ _ _ _ _ _ H1 Hd).
Qed.

Lemma other_backup_key (bucket backupName bucket' M : string) (role role' : Role) :
  (bucket', M) <> (bucket, backupName) ->
  (bucket', keyOf role' M) <> (bucket, keyOf role backupName).
Proof.
  intros Hne [= -> H]. apply keyOf_inv in H. destruct H as [_ ->]. now apply Hne.
Qed.

(** X3: whatever its outcome, UploadBackup of a backup leaves every object
    that is not one of the three artifacts of that backup in that bucket as
    it was; in particular it leaves all artifacts of every other backup,
    and every other bucket, alone. *)
Theorem UploadBackup_frame bucket backupName metadata backup log w bucket' key' :
  (forall role, (bucket', key') <> (bucket, keyOf role backupName)) ->
  content (objectStorage (snd (UploadBackup bucket backupName metadata backup log w)))
          bucket' key'
  = content (objectStorage w) bucket' key'
  /\ (forall M role,
        (bucket', M) <> (bucket, backupName) ->
        content (objectStorage (snd (UploadBackup bucket backupName metadata backup log w)))
                bucket' (keyOf role M)
        = content (objectStorage w) bucket' (keyOf role M)).
Proof.
  intros Hne. split; [now apply UploadBackup_frame_key|].
  intros M role HM. apply UploadBackup_frame_key.
  intros role'. now apply other_backup_key.
Qed.

(** X4: when UploadBackup returns nil, the metadata key holds the metadata
    payload and the data-archive key holds the archive; if, moreover,
    nothing was logged, the log key holds the log. *)
Theorem UploadBackup_stores bucket backupName metadata backup log w :
  fst (UploadBackup bucket backupName metadata backup log w) = None ->
  let w' := snd (UploadBackup bucket backupName metadata backup log w) in
  content (objectStorage w') bucket (getMetadataKey backupName) = Some metadata
  /\ content (objectStorage w') bucket (getBackupKey backupName) = Some backup
  /\ (glog w' = glog w ->
      content (objectStorage w') bucket (getBackupLogKey backupName) = Some log).
Proof.
  rewrite UploadBackup_unfold.
  destruct (PutObject bucket (getMetadataKey backupName) metadata (objectStorage w))
    as [[e|] s1] eqn:H1; simpl; [discriminate|].
  destruct (PutObject bucket (getBackupKey backupName) backup s1) as [[e|] s2] eqn:H2;
    simpl.
  { destruct (DeleteObject bucket (getMetadataKey backupName) s2) as [r3 s3]. simpl.
    intros H. now apply NewAggregate_some in H. }
  destruct (PutObject bucket (getBackupLogKey backupName) log s2) as [r3 s3] eqn:H3.
  simpl. intros _.
  assert (Hmd : (bucket, getMetadataKey backupName) <> (bucket, getBackupKey backupName)).
  { intros [= H]. apply (keyOf_inv MetadataRole DataRole) in H. now destruct H as [[=] _]. }
  split; [|split].
  - rewrite (PutObject_frame _ _ _ _ _ _ _ _ H3), (PutObject_frame _ _ _ _ _ _ _ _ H2).
    + exact (PutObject_stores _ _ _ _ _ H1).
    + exact Hmd.
    + intros [= H]. symmetry in H. now apply getBackupLogKey_not_getMetadataKey in H.
  - rewrite (PutObject_frame _ _ _ _ _ _ _ _ H3).
    + exact (PutObject_stores _ _ _ _ _ H2).
    + intros [= H]. symmetry in H. now apply getBackupLogKey_not_getBackupKey in H.
  - destruct r3 as [e|].
    + intros H. now apply app_singleton_neq in H.
    + intros _. exact (PutObject_stores _ _ _ _ _ H3).
Qed.
End Contents.

(** ** How the operations compose *)

Section Composition.
Context {S : Type} {adapter : ObjectStorageAdapter S} {decoder : Decoder}
        {contents : ObjectContents S}.
Implicit Types (w : World S) (s : S) (e : error).

Lemma DownloadBackup_reads bucket backupName w res data :
  fst (DownloadBackup bucket backupName w) = inl res ->
  ReadAll res = inl data ->
  content (objectStorage w) bucket (getBackupKey backupName) = Some data.
Proof.
  unfold DownloadBackup, getObject.
  destruct (GetObject bucket (getBackupKey backupName) (objectStorage w))
    as [r s'] eqn:Hget.
  simpl. intros -> Hread. exact (GetObject_reads _ _ _ _ _ _ Hget Hread).
Qed.

(** X5: after an UploadBackup that returned nil, a DownloadBackup of the
    same name from the same bucket whose body reads to its end yields the
    archive that was uploaded. *)
Theorem DownloadBackup_after_UploadBackup bucket backupName metadata backup log w res data :
  fst (UploadBackup bucket backupName metadata backup log w) = None ->
  fst (DownloadBackup bucket backupName
         (snd (UploadBackup bucket backupName metadata backup log w))) = inl res ->
  ReadAll res = inl data ->
  data = backup.
Proof.
  intros Hup Hdown Hread.
  pose proof (DownloadBackup_reads _ _ _ _ _ Hdown Hread) as Hc.
  destruct (UploadBackup_stores _ _ _ _ _ _ Hup) as (_ & Hd & _).
  congruence.
Qed.

(** X6: whatever its outcome, DeleteBackup of a backup leaves every object
    other than the data archive and the metadata of that backup as it was:
    the log of the backup itself, all artifacts of every other backup, and
    every other bucket. *)
Theorem DeleteBackup_frame bucket backupName w bucket' key' :
  (bucket', key') <> (bucket, getBackupKey backupName) ->
  (bucket', key') <> (bucket, getMetadataKey backupName) ->
  let w' := snd (DeleteBackup bucket backupName w) in
  content (objectStorage w') bucket' key' = content (objectStorage w) bucket' key'
  /\ content (objectStorage w') bucket (getBackupLogKey backupName)
     = content (objectStorage w) bucket (getBackupLogKey backupName)
  /\ (forall M role,
        (bucket', M) <> (bucket, backupName) ->
        content (objectStorage w') bucket' (keyOf role M)
        = content (objectStorage w) bucket' (keyOf role M)).
Proof.
  intros Hd Hm w'. split; [|split].
  - now apply DeleteBackup_frame_key.
  - apply DeleteBackup_frame_key; intros [= H].
    + now apply getBackupLogKey_not_getBackupKey in H.
    + now apply getBackupLogKey_not_getMetadataKey in H.
  - intros M role HM.
    apply DeleteBackup_frame_key;
      [apply (other_backup_key _ _ _ _ DataRole)|apply (other_backup_key _ _ _ _ MetadataRole)];
      exact HM.
Qed.

(** X7: a log that UploadBackup stored outlives the backup: after an
    upload that returned nil and logged nothing, DeleteBackup, whatever it
    returns, leaves the log object in the bucket with the uploaded log. *)
Theorem DeleteBackup_leaves_uploaded_log bucket backupName metadata backup log w :
  fst (UploadBackup bucket backupName metadata backup log w) = None ->
  glog (snd (UploadBackup bucket backupName metadata backup log w)) = glog w ->
  content (objectStorage
             (snd (DeleteBackup bucket backupName
                     (snd (UploadBackup bucket backupName metadata backup log w)))))
          bucket (getBackupLogKey backupName)
  = Some log.
Proof.
  intros Hup Hlog.
  destruct (UploadBackup_stores _ _ _ _ _ _ Hup) as (_ & _ & Hl).
  rewrite DeleteBackup_frame_key.
  - exact (Hl Hlog).
  - intros [= H]. now apply getBackupLogKey_not_getBackupKey in H.
  - intros [= H]. now apply getBackupLogKey_not_getMetadataKey in H.
Qed.

Lemma DeleteBackup_clears bucket backupName w :
  fst (DeleteBackup bucket backupName w) = None ->
  content (objectStorage (snd (DeleteBackup bucket backupName w)))
          bucket (getBackupKey backupName) = None
  /\ content (objectStorage (snd (DeleteBackup bucket backupName w)))
             bucket (getMetadataKey backupName) = None.
Proof.
  destruct (DeleteBackup_unfold bucket backupName w) as [lines ->].
  destruct (DeleteObject bucket (getBackupKey backupName) (objectStorage w))
    as [d1 s1] eqn:H1.
  destruct (DeleteObject bucket (getMetadataKey backupName) s1) as [d2 s2] eqn:H2.
  simpl. intros H. apply NewAggregate_pair_nil in H. destruct H as [-> ->]. split.
  - rewrite (DeleteObject_frame _ _ _ _ _ _ _ H2).
    + exact (DeleteObject_clears _ _ _ _ H1).
    + intros [= H]. apply (keyOf_inv DataRole MetadataRole) in H.
      now destruct H as [[=] _].
  - exact (DeleteObject_clears _ _ _ _ H2).
Qed.

(** X8: after a DeleteBackup that returned nil, DownloadBackup of the same
    name from the same bucket returns an error. *)
Theorem DownloadBackup_after_DeleteBackup bucket backupName w :
  fst (DeleteBackup bucket backupName w) = None ->
  exists e, fst (DownloadBackup bucket backupName (snd (DeleteBackup bucket backupName w)))
            = inr e.
Proof.
  intros Hdel. destruct (DeleteBackup_clears _ _ _ Hdel) as [Hd _].
  destruct (GetObject_missing _ _ _ Hd) as [e He]. exists e.
  unfold DownloadBackup, getObject.
  destruct (GetObject bucket (getBackupKey backupName) _) as [r s']. exact He.
Qed.
End Composition.

(** ** The calls and the errors of an enumeration *)

Section EnumerationRuns.
Context {S : Type} {adapter : ObjectStorageAdapter S} {decoder : Decoder}.
Implicit Types (w : World S) (s : S) (e : error).

Lemma func1_decodes_world bucket backupDir output w b s' :
  CandidateDecodes bucket backupDir (objectStorage w) b s' ->
  GetAllBackups_func1 bucket backupDir output w
  = ((output ++ [b], None),
     mkWorld s' (calls w ++ fetchAndClose bucket backupDir) (glog w)).
Proof.
  intros [res data b' s'' Hget Hread Hdec]. unfold GetAllBackups_func1. go_unfold.
  rewrite Hget; simpl. rewrite Hread; simpl. rewrite Hdec; simpl.
  go_unfold. unfold fetchAndClose. now rewrite <- app_assoc.
Qed.

Lemma func1_fails_world bucket backupDir output w e s' :
  CandidateFails bucket backupDir (objectStorage w) e s' ->
  GetAllBackups_func1 bucket backupDir output w
  = ((output, Some e),
     mkWorld s'
       (calls w
        ++ CallGetObject bucket (getMetadataKey backupDir)
           :: match fst (GetObject bucket (getMetadataKey backupDir) (objectStorage w)) with
              | inl _ => [CallClose bucket (getMetadataKey backupDir)]
              | inr _ => []
              end)
       (glog w)).
Proof.
  intros H. unfold GetAllBackups_func1, Errorf. go_unfold.
  destruct H as [e s' Hget|res e s' Hget Hread|res data e s' Hget Hread Hdec
                 |res data ty s' Hget Hread Hdec];
    rewrite Hget; simpl; try rewrite Hread; simpl; try rewrite Hdec; simpl;
    try rewrite Sprintf_unexpected_type; go_unfold; now rewrite <- ?app_assoc.
Qed.

Lemma range_decoded_world bucket prefixes : forall output w backups s',
  Decoded bucket (objectStorage w) prefixes backups s' ->
  GetAllBackups_range bucket prefixes output w
  = ((Some (output ++ backups), None),
     mkWorld s' (calls w ++ flat_map (fetchAndClose bucket) prefixes) (glog w)).
Proof.
  induction prefixes as [|p prefixes IH]; intros output w backups s' H;
    inversion H as [|? ? b s1 ? backups' ? Hc Hd]; subst.
  - cbn. rewrite !app_nil_r. now destruct w.
  - cbn [GetAllBackups_range flat_map]. unfold bind.
    rewrite (func1_decodes_world _ _ _ _ _ _ Hc).
    rewrite (IH (output ++ [b]) (mkWorld s1 (calls w ++ fetchAndClose bucket p) (glog w))
                backups' s' Hd).
    cbn [calls glog].
    now rewrite <- !app_assoc.
Qed.

Lemma range_fails_world bucket pre p post : forall output w backups s1 e s2,
  Decoded bucket (objectStorage w) pre backups s1 ->
  CandidateFails bucket p s1 e s2 ->
  GetAllBackups_range bucket (pre ++ p :: post) output w
  = ((None, Some e),
     mkWorld s2
       (calls w ++ flat_map (fetchAndClose bucket) pre
        ++ CallGetObject bucket (getMetadataKey p)
           :: match fst (GetObject bucket (getMetadataKey p) s1) with
              | inl _ => [CallClose bucket (getMetadataKey p)]
              | inr _ => []
              end)
       (glog w)).
Proof.
  induction pre as [|q pre IH]; intros output w backups s1 e s2 Hpre Hp;
    inversion Hpre as [|? ? b s' ? backups' ? Hc Hd]; subst.
  - cbn [app GetAllBackups_range flat_map]. unfold bind.
    now rewrite (func1_fails_world _ _ _ _ _ _ Hp).
  - cbn [app GetAllBackups_range flat_map]. unfold bind.
    rewrite (func1_decodes_world _ _ _ _ _ _ Hc).
    rewrite (IH (output ++ [b]) (mkWorld s' (calls w ++ fetchAndClose bucket q) (glog w))
                backups' s1 e s2 Hd Hp).
    cbn [calls glog].
    now rewrite <- !app_assoc.
Qed.

(** Where the error of the loop comes from. *)
Lemma range_error bucket prefixes : forall output w r e,
  fst (GetAllBackups_range bucket prefixes output w) = (r, Some e) ->
  exists pre p post backups s1 s2,
    prefixes = pre ++ p :: post
    /\ Decoded bucket (objectStorage w) pre backups s1
    /\ CandidateFails bucket p s1 e s2.
Proof.
  induction prefixes as [|p prefixes IH]; intros output w r e H.
  - discriminate H.
  - cbn [GetAllBackups_range] in H. unfold bind in H.
    destruct (candidate_cases bucket p (objectStorage w)) as [(e' & s' & Hc)|(b & s' & Hc)].
    + rewrite (func1_fails_world _ _ _ _ _ _ Hc) in H. injection H as <- <-.
      exists [], p, prefixes, [], (objectStorage w), s'.
      split; [reflexivity|]. split; [constructor|exact Hc].
    + rewrite (func1_decodes_world _ _ _ _ _ _ Hc) in H.
      apply IH in H. destruct H as (pre & q & post & backups & s1 & s2 & -> & Hd & Hq).
      exists (p :: pre), q, post, (b :: backups), s1, s2.
      split; [reflexivity|]. split; [econstructor; eauto|exact Hq].
Qed.

(** X9: if the listing fails, GetAllBackups returns a nil collection and
    the listing's error as it is; the listing is its only call on the
    adapter, so no object is fetched, and nothing is logged. *)
Theorem GetAllBackups_listing_failure bucket w e s0 :
  ListCommonPrefixes bucket "/" (objectStorage w) = (inr e, s0) ->
  GetAllBackups bucket w
  = ((None, Some e),
     mkWorld s0 (calls w ++ [CallListCommonPrefixes bucket "/"]) (glog w)).
Proof.
  intros Hlist. unfold GetAllBackups. go_unfold. now rewrite Hlist.
Qed.

(** X10: when GetAllBackups succeeds, its calls are the listing followed,
    for each listed prefix in order, by the fetch of its metadata key and
    the close of the body: one fetch per prefix, every body closed, and no
    data archive or log ever looked at. *)
Theorem GetAllBackups_success_calls bucket w prefixes s0 r w' :
  ListCommonPrefixes bucket "/" (objectStorage w) = (inl prefixes, s0) ->
  GetAllBackups bucket w = ((r, None), w') ->
  calls w' = calls w ++ CallListCommonPrefixes bucket "/"
                        :: flat_map (fetchAndClose bucket) prefixes.
Proof.
  intros Hlist Hrun. destruct prefixes as [|p prefixes].
  - rewrite (GetAllBackups_listed_none _ _ _ Hlist) in Hrun. now injection Hrun as <- <-.
  - rewrite (GetAllBackups_listed _ _ _ _ Hlist) in Hrun by discriminate.
    pose proof (range_result _ _ _ _ _ _ _ Hrun) as (backups & _ & Hd).
    simpl in Hd.
    rewrite (range_decoded_world
               bucket (p :: prefixes) []
               (mkWorld s0 (calls w ++ [CallListCommonPrefixes bucket "/"]) (glog w))
               backups (objectStorage w') Hd) in Hrun.
    injection Hrun as _ <-. cbn [calls]. now rewrite <- app_assoc.
Qed.

(** X11: when a candidate fails after the ones listed before it decoded,
    GetAllBackups stops there: its calls are the listing, a fetch and a
    close for each earlier prefix, the fetch of the failing one and, if
    that fetch returned a body, its close. The prefixes listed after the
    failing one are never fetched, and no body is left open. *)
Theorem GetAllBackups_failure_calls bucket w pre p post s0 backups s1 e s2 :
  ListCommonPrefixes bucket "/" (objectStorage w) = (inl (pre ++ p :: post), s0) ->
  Decoded bucket s0 pre backups s1 ->
  CandidateFails bucket p s1 e s2 ->
  calls (snd (GetAllBackups bucket w))
  = calls w ++ CallListCommonPrefixes bucket "/"
            :: flat_map (fetchAndClose bucket) pre
            ++ CallGetObject bucket (getMetadataKey p)
               :: match fst (GetObject bucket (getMetadataKey p) s1) with
                  | inl _ => [CallClose bucket (getMetadataKey p)]
                  | inr _ => []
                  end.
Proof.
  intros Hlist Hpre Hp.
  rewrite (GetAllBackups_listed _ _ _ _ Hlist) by now destruct pre.
  rewrite (range_fails_world
             bucket pre p post []
             (mkWorld s0 (calls w ++ [CallListCommonPrefixes bucket "/"]) (glog w))
             backups s1 e s2 Hpre Hp).
  cbn [snd calls]. now rewrite <- app_assoc.
Qed.

(** X12: the collection GetAllBackups returns is nil exactly when its
    error is not: a caller never gets an error with records, nor a nil
    collection without an error. *)
Theorem GetAllBackups_nil_iff_error bucket w :
  fst (fst (GetAllBackups bucket w)) = None
  <-> snd (fst (GetAllBackups bucket w)) <> None.
Proof.
  destruct (ListCommonPrefixes bucket "/" (objectStorage w))
    as [[[|p prefixes]|e'] s0] eqn:Hlist.
  - rewrite (GetAllBackups_listed_none _ _ _ Hlist). simpl. split; [discriminate|tauto].
  - rewrite (GetAllBackups_listed _ _ _ _ Hlist) by discriminate.
    destruct (GetAllBackups_range _ _ _ _) as [[r err] w'] eqn:Hr.
    pose proof (range_result _ _ _ _ _ _ _ Hr) as H. simpl.
    destruct err as [e|].
    + subst r. split; [discriminate|reflexivity].
    + destruct H as (backups & -> & _). split; [discriminate|tauto].
  - rewrite (GetAllBackups_not_listed _ _ _ _ Hlist). simpl.
    split; [discriminate|reflexivity].
Qed.

(** X13: every error GetAllBackups returns is the error of the listing, or
    the error with which the first failing candidate fails: the error of
    the fetch, of the read or of the decoder as it is, or the
    unexpected-type error. *)
Theorem GetAllBackups_error_origin bucket w e :
  snd (fst (GetAllBackups bucket w)) = Some e ->
  (exists s0, ListCommonPrefixes bucket "/" (objectStorage w) = (inr e, s0))
  \/ (exists pre p post s0 backups s1 s2,
        ListCommonPrefixes bucket "/" (objectStorage w) = (inl (pre ++ p :: post), s0)
        /\ Decoded bucket s0 pre backups s1
        /\ CandidateFails bucket p s1 e s2).
Proof.
  destruct (ListCommonPrefixes bucket "/" (objectStorage w))
    as [[[|p prefixes]|e'] s0] eqn:Hlist.
  - rewrite (GetAllBackups_listed_none _ _ _ Hlist). discriminate.
  - rewrite (GetAllBackups_listed _ _ _ _ Hlist) by discriminate. intros H.
    destruct (GetAllBackups_range _ _ _ _) as [[r err] w'] eqn:Hr.
    simpl in H. subst err.
    assert (Hr' : fst (GetAllBackups_range
                         bucket (p :: prefixes) []
                         (mkWorld s0 (calls w ++ [CallListCommonPrefixes bucket "/"])
                                  (glog w)))
                  = (r, Some e)) by now rewrite Hr.
    apply range_error in Hr'.
    destruct Hr' as (pre & q & post & backups & s1 & s2 & Heq & Hd & Hq).
    right. exists pre, q, post, s0, backups, s1, s2. rewrite Heq. now split.
  - rewrite (GetAllBackups_not_listed _ _ _ _ Hlist). simpl. intros [= <-].
    left. now exists s0.
Qed.
End EnumerationRuns.

(** ** Enumeration on the contents of the store *)

Section EnumerationContents.
Context {S : Type} {adapter : ObjectStorageAdapter S} {decoder : Decoder}
        {contents : ObjectContents S}.
Implicit Types (w : World S) (s : S) (e : error).

Lemma CandidateDecodes_content bucket backupDir s b s' bucket' key' :
  CandidateDecodes bucket backupDir s b s' ->
  content s' bucket' key' = content s bucket' key'.
Proof. intros [res data b' s'' Hget _ _]. exact (GetObject_frame _ _ _ _ _ _ _ Hget). Qed.

Lemma CandidateFails_content bucket backupDir s e s' bucket' key' :
  CandidateFails bucket backupDir s e s' ->
  content s' bucket' key' = content s bucket' key'.
Proof. intros []; eapply GetObject_frame; eassumption. Qed.

Lemma Decoded_content bucket s prefixes backups s' bucket' key' :
  Decoded bucket s prefixes backups s' ->
  content s' bucket' key' = content s bucket' key'.
Proof.
  induction 1 as [|s p b s1 prefixes backups s2 Hc _ IH]; [reflexivity|].
  rewrite IH. exact (CandidateDecodes_content _ _ _ _ _ _ _ Hc).
Qed.

(** What decodes at a position is what the store holds under the metadata
    key of the prefix at that position. *)
Lemma Decoded_lookup bucket s prefixes backups s' :
  Decoded bucket s prefixes backups s' ->
  forall i p b, prefixes !! i = Some p -> backups !! i = Some b ->
    exists data, content s bucket (getMetadataKey p) = Some data
                 /\ Decode data = inl (BackupObject b).
Proof.
  induction 1 as [|s q b0 s1 prefixes backups s2 Hc Hd IH]; intros i p b Hp Hb.
  - destruct i; discriminate Hp.
  - destruct i as [|i]; simpl in Hp, Hb.
    + injection Hp as <-. injection Hb as <-.
      destruct Hc as [res data b0 s1 Hget Hread Hdec]. exists data. split; [|exact Hdec].
      exact (GetObject_reads _ _ _ _ _ _ Hget Hread).
    + destruct (IH i p b Hp Hb) as (data & Hcont & Hdec). exists data.
      split; [|exact Hdec].
      now rewrite <- (CandidateDecodes_content _ _ _ _ _ bucket (getMetadataKey p) Hc).
Qed.

Lemma Decoded_same_length bucket s prefixes backups s' :
  Decoded bucket s prefixes backups s' -> length backups = length prefixes.
Proof. induction 1; simpl; congruence. Qed.

(** The world after an enumeration, in each of its outcomes. *)
Lemma GetAllBackups_outcome bucket w :
  (exists e s0, ListCommonPrefixes bucket "/" (objectStorage w) = (inr e, s0)
                /\ fst (GetAllBackups bucket w) = (None, Some e)
                /\ objectStorage (snd (GetAllBackups bucket w)) = s0)
  \/ (exists prefixes s0 backups,
        ListCommonPrefixes bucket "/" (objectStorage w) = (inl prefixes, s0)
        /\ fst (GetAllBackups bucket w) = (Some backups, None)
        /\ Decoded bucket s0 prefixes backups (objectStorage (snd (GetAllBackups bucket w))))
  \/ (exists pre p post s0 backups s1 e s2,
        ListCommonPrefixes bucket "/" (objectStorage w) = (inl (pre ++ p :: post), s0)
        /\ Decoded bucket s0 pre backups s1
        /\ CandidateFails bucket p s1 e s2
        /\ fst (GetAllBackups bucket w) = (None, Some e)
        /\ objectStorage (snd (GetAllBackups bucket w)) = s2).
Proof.
  destruct (ListCommonPrefixes bucket "/" (objectStorage w))
    as [[[|p prefixes]|e'] s0] eqn:Hlist.
  - right. left. exists [], s0, []. rewrite (GetAllBackups_listed_none _ _ _ Hlist).
    split; [reflexivity|]. split; [reflexivity|constructor].
  - rewrite (GetAllBackups_listed _ _ _ _ Hlist) by discriminate.
    set (w0 := mkWorld s0 (calls w ++ [CallListCommonPrefixes bucket "/"]) (glog w)).
    destruct (GetAllBackups_range bucket (p :: prefixes) [] w0) as [[r [e|]] w'] eqn:Hr.
    + right. right.
      assert (Hr' : fst (GetAllBackups_range bucket (p :: prefixes) [] w0) = (r, Some e))
        by now rewrite Hr.
      apply range_error in Hr'.
      destruct Hr' as (pre & q & post & backups & s1 & s2 & Heq & Hd & Hq).
      exists pre, q, post, s0, backups, s1, e, s2. rewrite Heq. split; [reflexivity|].
      split; [exact Hd|]. split; [exact Hq|].
      rewrite Heq in Hr.
      rewrite (range_fails_world bucket pre q post [] w0 backups s1 e s2 Hd Hq) in Hr.
      injection Hr as <- <-. now split.
    + right. left. pose proof (range_result _ _ _ _ _ _ _ Hr) as (backups & -> & Hd).
      exists (p :: prefixes), s0, backups. now split.
  - left. exists e', s0. rewrite (GetAllBackups_not_listed _ _ _ _ Hlist). now split.
Qed.

(** X14: GetAllBackups is read-only in all its outcomes: it leaves every
    object of every bucket as it was. *)
Theorem GetAllBackups_read_only bucket w bucket' key' :
  content (objectStorage (snd (GetAllBackups bucket w))) bucket' key'
  = content (objectStorage w) bucket' key'.
Proof.
  destruct (GetAllBackups_outcome bucket w)
    as [(e & s0 & Hlist & _ & ->)
       |[(prefixes & s0 & backups & Hlist & _ & Hd)
        |(pre & p & post & s0 & backups & s1 & e & s2 & Hlist & Hd & Hp & _ & ->)]].
  - exact (ListCommonPrefixes_frame _ _ _ _ _ _ _ Hlist).
  - rewrite (Decoded_content _ _ _ _ _ _ _ Hd).
    exact (ListCommonPrefixes_frame _ _ _ _ _ _ _ Hlist).
  - rewrite (CandidateFails_content _ _ _ _ _ _ _ Hp), (Decoded_content _ _ _ _ _ _ _ Hd).
    exact (ListCommonPrefixes_frame _ _ _ _ _ _ _ Hlist).
Qed.

(** X15: what is uploaded is what enumeration returns: after an
    UploadBackup that returned nil with a metadata payload that decodes to
    a backup record, a GetAllBackups of that bucket that succeeds returns
    that record at every position where the listing has the backup's
    name. *)
Theorem GetAllBackups_after_UploadBackup
        bucket backupName metadata backup log w record prefixes s0 backups i :
  fst (UploadBackup bucket backupName metadata backup log w) = None ->
  Decode metadata = inl (BackupObject record) ->
  let w1 := snd (UploadBackup bucket backupName metadata backup log w) in
  ListCommonPrefixes bucket "/" (objectStorage w1) = (inl prefixes, s0) ->
  fst (GetAllBackups bucket w1) = (Some backups, None) ->
  prefixes !! i = Some backupName ->
  backups !! i = Some record.
Proof.
  intros Hup Hdec w1 Hlist Hrun Hi.
  destruct (UploadBackup_stores _ _ _ _ _ _ Hup) as (Hm & _ & _). fold w1 in Hm.
  destruct (GetAllBackups_outcome bucket w1)
    as [(e & s0' & Hlist' & _)
       |[(prefixes' & s0' & backups' & Hlist' & Hrun' & Hd)
        |(pre & p & post & s0' & bs & s1 & e & s2 & _ & _ & _ & Hrun' & _)]];
    try congruence.
  rewrite Hlist in Hlist'. injection Hlist' as <- <-.
  rewrite Hrun in Hrun'. injection Hrun' as <-.
  assert (Hlen : i < length backups).
  { rewrite (Decoded_same_length _ _ _ _ _ Hd). now apply lookup_lt_Some in Hi. }
  destruct (lookup_lt_is_Some_2 _ _ Hlen) as [b Hb]. rewrite Hb. f_equal.
  destruct (Decoded_lookup _ _ _ _ _ Hd i backupName b Hi Hb) as (data & Hcont & Hdata).
  rewrite (ListCommonPrefixes_frame _ _ _ _ _ _ _ Hlist) in Hcont.
  congruence.
Qed.

(** X16: a deleted backup that is still listed breaks enumeration: after a
    DeleteBackup that returned nil, a GetAllBackups of that bucket whose
    listing still has the backup's name (an adapter lists it as long as
    the log object, which DeleteBackup leaves behind, is there) returns an
    error. *)
Theorem GetAllBackups_after_DeleteBackup bucket backupName w prefixes s0 :
  fst (DeleteBackup bucket backupName w) = None ->
  let w1 := snd (DeleteBackup bucket backupName w) in
  ListCommonPrefixes bucket "/" (objectStorage w1) = (inl prefixes, s0) ->
  In backupName prefixes ->
  exists e, fst (GetAllBackups bucket w1) = (None, Some e).
Proof.
  intros Hdel w1 Hlist Hin.
  destruct (DeleteBackup_clears _ _ _ Hdel) as [_ Hm]. fold w1 in Hm.
  destruct (GetAllBackups_outcome bucket w1)
    as [(e & s0' & _ & Hrun & _)
       |[(prefixes' & s0' & backups & Hlist' & _ & Hd)
        |(pre & p & post & s0' & bs & s1 & e & s2 & _ & _ & _ & Hrun & _)]];
    [now exists e| |now exists e].
  exfalso. rewrite Hlist in Hlist'. injection Hlist' as <- <-.
  apply list_elem_of_In, list_elem_of_lookup in Hin. destruct Hin as [i Hi].
  assert (Hlen : i < length backups).
  { rewrite (Decoded_same_length _ _ _ _ _ Hd). now apply lookup_lt_Some in Hi. }
  destruct (lookup_lt_is_Some_2 _ _ Hlen) as [b Hb].
  destruct (Decoded_lookup _ _ _ _ _ Hd i backupName b Hi Hb) as (data & Hcont & _).
  rewrite (ListCommonPrefixes_frame _ _ _ _ _ _ _ Hlist) in Hcont.
  congruence.
Qed.
End EnumerationContents.

(** ** The two revisions of the file *)

(** X17: the revision that formats its keys in place and the revision with
    the key functions are the same program: UploadBackup, DownloadBackup,
    GetAllBackups and DeleteBackup of the one return the same results and
    leave the same store, call log and log lines as those of the other, on
    every adapter, decoder and input. *)
Theorem revisions_agree {S : Type} {adapter : ObjectStorageAdapter S} {decoder : Decoder}
        (bucket backupName : string) (metadata backup log : ReadSeeker) (w : World S) :
  Inlined.UploadBackup bucket backupName metadata backup log w
  = UploadBackup bucket backupName metadata backup log w
  /\ Inlined.DownloadBackup bucket backupName w = DownloadBackup bucket backupName w
  /\ Inlined.GetAllBackups bucket w = GetAllBackups bucket w
  /\ Inlined.DeleteBackup bucket backupName w = DeleteBackup bucket backupName w.
Proof.
  rewrite Inlined_UploadBackup, Inlined_DownloadBackup, Inlined_GetAllBackups,
    Inlined_DeleteBackup.
  repeat split.
Qed.

(** ** The further properties on the in-memory adapter *)

Import MoreExamples.

Lemma UploadBackup_frame_witness :
  (forall role, ("bkt", "a/a.tar.gz") <> ("bkt", keyOf role "nightly"))
  /\ content (objectStorage
                (snd (UploadBackup "bkt" "nightly" "backup:nightly" "tar" "log"
                        (Mem.start twoBackups))))
             "bkt" "a/a.tar.gz"
     = content (objectStorage (Mem.start twoBackups)) "bkt" "a/a.tar.gz"
  /\ (forall M role,
        ("bkt", M) <> ("bkt", "nightly") ->
        content (objectStorage
                   (snd (UploadBackup "bkt" "nightly" "backup:nightly" "tar" "log"
                           (Mem.start twoBackups))))
                "bkt" (keyOf role M)
        = content (objectStorage (Mem.start twoBackups)) "bkt" (keyOf role M)).
Proof.
  assert (H : forall role, ("bkt", "a/a.tar.gz") <> ("bkt", keyOf role "nightly"))
    by (intros [] [=]).
  split; [exact H|].
  exact (UploadBackup_frame "bkt" "nightly" "backup:nightly" "tar" "log"
                            (Mem.start twoBackups) "bkt" "a/a.tar.gz" H).
Defined.

Lemma UploadBackup_stores_witness :
  fst (UploadBackup "bkt" "nightly" "backup:nightly" "tar" "log" (Mem.start Mem.empty)) = None
  /\ content (objectStorage
                (snd (UploadBackup "bkt" "nightly" "backup:nightly" "tar" "log"
                        (Mem.start Mem.empty))))
             "bkt" (getMetadataKey "nightly") = Some "backup:nightly"
  /\ content (objectStorage
                (snd (UploadBackup "bkt" "nightly" "backup:nightly" "tar" "log"
                        (Mem.start Mem.empty))))
             "bkt" (getBackupKey "nightly") = Some "tar"
  /\ (glog (snd (UploadBackup "bkt" "nightly" "backup:nightly" "tar" "log"
                   (Mem.start Mem.empty)))
      = glog (Mem.start Mem.empty) ->
      content (objectStorage
                 (snd (UploadBackup "bkt" "nightly" "backup:nightly" "tar" "log"
                         (Mem.start Mem.empty))))
              "bkt" (getBackupLogKey "nightly") = Some "log").
Proof.
  assert (H : fst (UploadBackup "bkt" "nightly" "backup:nightly" "tar" "log"
                     (Mem.start Mem.empty)) = None) by reflexivity.
  split; [exact H|].
  exact (UploadBackup_stores "bkt" "nightly" "backup:nightly" "tar" "log"
                             (Mem.start Mem.empty) H).
Defined.

Lemma DownloadBackup_after_UploadBackup_witness :
  fst (UploadBackup "bkt" "nightly" "backup:nightly" "tar" "log" (Mem.start Mem.empty)) = None
  /\ fst (DownloadBackup "bkt" "nightly"
            (snd (UploadBackup "bkt" "nightly" "backup:nightly" "tar" "log"
                    (Mem.start Mem.empty))))
     = inl (Body "tar")
  /\ ReadAll (Body "tar") = inl "tar"
  /\ "tar" = "tar".
Proof.
  assert (H1 : fst (UploadBackup "bkt" "nightly" "backup:nightly" "tar" "log"
                      (Mem.start Mem.empty)) = None) by reflexivity.
  assert (H2 : fst (DownloadBackup "bkt" "nightly"
                      (snd (UploadBackup "bkt" "nightly" "backup:nightly" "tar" "log"
                              (Mem.start Mem.empty))))
               = inl (Body "tar")) by reflexivity.
  assert (H3 : ReadAll (Body "tar") = inl "tar") by reflexivity.
  split; [exact H1|]. split; [exact H2|]. split; [exact H3|].
  exact (DownloadBackup_after_UploadBackup
           "bkt" "nightly" "backup:nightly" "tar" "log" (Mem.start Mem.empty)
           (Body "tar") "tar" H1 H2 H3).
Defined.

Lemma DeleteBackup_frame_witness :
  ("bkt", "a/ark-backup.json") <> ("bkt", getBackupKey "a/ark-backup.json")
  /\ ("bkt", "a/ark-backup.json") <> ("bkt", getMetadataKey "a/ark-backup.json")
  /\ content (objectStorage (snd (DeleteBackup "bkt" "a/ark-backup.json"
                                    (Mem.start twoBackups))))
             "bkt" "a/ark-backup.json"
     = content (objectStorage (Mem.start twoBackups)) "bkt" "a/ark-backup.json"
  /\ content (objectStorage (snd (DeleteBackup "bkt" "a/ark-backup.json"
                                    (Mem.start twoBackups))))
             "bkt" (getBackupLogKey "a/ark-backup.json")
     = content (objectStorage (Mem.start twoBackups)) "bkt"
               (getBackupLogKey "a/ark-backup.json")
  /\ (forall M role,
        ("bkt", M) <> ("bkt", "a/ark-backup.json") ->
        content (objectStorage (snd (DeleteBackup "bkt" "a/ark-backup.json"
                                       (Mem.start twoBackups))))
                "bkt" (keyOf role M)
        = content (objectStorage (Mem.start twoBackups)) "bkt" (keyOf role M)).
Proof.
  assert (H1 : ("bkt", "a/ark-backup.json") <> ("bkt", getBackupKey "a/ark-backup.json"))
    by (intros [=]).
  assert (H2 : ("bkt", "a/ark-backup.json") <> ("bkt", getMetadataKey "a/ark-backup.json"))
    by (intros [=]).
  split; [exact H1|]. split; [exact H2|].
  exact (DeleteBackup_frame "bkt" "a/ark-backup.json" (Mem.start twoBackups)
                            "bkt" "a/ark-backup.json" H1 H2).
Defined.

Lemma DeleteBackup_leaves_uploaded_log_witness :
  fst (UploadBackup "bkt" "nightly" "backup:nightly" "tar" "log" (Mem.start Mem.empty)) = None
  /\ glog (snd (UploadBackup "bkt" "nightly" "backup:nightly" "tar" "log"
                  (Mem.start Mem.empty)))
     = glog (Mem.start Mem.empty)
  /\ content (objectStorage
                (snd (DeleteBackup "bkt" "nightly"
                        (snd (UploadBackup "bkt" "nightly" "backup:nightly" "tar" "log"
                                (Mem.start Mem.empty))))))
             "bkt" (getBackupLogKey "nightly")
     = Some "log".
Proof.
  assert (H1 : fst (UploadBackup "bkt" "nightly" "backup:nightly" "tar" "log"
                      (Mem.start Mem.empty)) = None) by reflexivity.
  assert (H2 : glog (snd (UploadBackup "bkt" "nightly" "backup:nightly" "tar" "log"
                            (Mem.start Mem.empty)))
               = glog (Mem.start Mem.empty)) by reflexivity.
  split; [exact H1|]. split; [exact H2|].
  exact (DeleteBackup_leaves_uploaded_log
           "bkt" "nightly" "backup:nightly" "tar" "log" (Mem.start Mem.empty) H1 H2).
Defined.

Lemma DownloadBackup_after_DeleteBackup_witness :
  fst (DeleteBackup "bkt" "nightly" (Mem.start uploaded)) = None
  /\ exists e, fst (DownloadBackup "bkt" "nightly"
                      (snd (DeleteBackup "bkt" "nightly" (Mem.start uploaded))))
               = inr e.
Proof.
  assert (H : fst (DeleteBackup "bkt" "nightly" (Mem.start uploaded)) = None)
    by reflexivity.
  split; [exact H|].
  exact (DownloadBackup_after_DeleteBackup "bkt" "nightly" (Mem.start uploaded) H).
Defined.

Example DeleteBackup_result_store :
  objectStorage (snd (DeleteBackup "bkt" "nightly" (Mem.start uploaded))) = deleted.
Proof. reflexivity. Qed.

Lemma GetAllBackups_listing_failure_witness :
  ListCommonPrefixes "bkt" "/" unlistable = (inr denied, unlistable)
  /\ GetAllBackups "bkt" (Mem.start unlistable)
     = ((None, Some denied),
        mkWorld unlistable ([] ++ [CallListCommonPrefixes "bkt" "/"]) []).
Proof.
  assert (H : ListCommonPrefixes "bkt" "/" unlistable = (inr denied, unlistable))
    by reflexivity.
  split; [exact H|].
  exact (GetAllBackups_listing_failure "bkt" (Mem.start unlistable) denied unlistable H).
Defined.

Lemma GetAllBackups_success_calls_witness :
  ListCommonPrefixes "bkt" "/" twoBackups = (inl ["a"; "b"], twoBackups)
  /\ GetAllBackups "bkt" (Mem.start twoBackups)
     = ((Some [backupA; backupB], None),
        mkWorld twoBackups
          [CallListCommonPrefixes "bkt" "/";
           CallGetObject "bkt" "a/ark-backup.json"; CallClose "bkt" "a/ark-backup.json";
           CallGetObject "bkt" "b/ark-backup.json"; CallClose "bkt" "b/ark-backup.json"]
          [])
  /\ [CallListCommonPrefixes "bkt" "/";
      CallGetObject "bkt" "a/ark-backup.json"; CallClose "bkt" "a/ark-backup.json";
      CallGetObject "bkt" "b/ark-backup.json"; CallClose "bkt" "b/ark-backup.json"]
     = [] ++ CallListCommonPrefixes "bkt" "/" :: flat_map (fetchAndClose "bkt") ["a"; "b"].
Proof.
  assert (H1 : ListCommonPrefixes "bkt" "/" twoBackups = (inl ["a"; "b"], twoBackups))
    by reflexivity.
  assert (H2 : GetAllBackups "bkt" (Mem.start twoBackups)
               = ((Some [backupA; backupB], None),
                  mkWorld twoBackups
                    [CallListCommonPrefixes "bkt" "/";
                     CallGetObject "bkt" "a/ark-backup.json";
                     CallClose "bkt" "a/ark-backup.json";
                     CallGetObject "bkt" "b/ark-backup.json";
                     CallClose "bkt" "b/ark-backup.json"]
                    [])) by (vm_compute; reflexivity).
  split; [exact H1|]. split; [exact H2|].
  exact (GetAllBackups_success_calls "bkt" (Mem.start twoBackups) _ _ _ _ H1 H2).
Defined.

Lemma GetAllBackups_failure_calls_witness :
  ListCommonPrefixes "bkt" "/" brokenRead = (inl (["a"] ++ "b" :: ["d"]), brokenRead)
  /\ Decoded "bkt" brokenRead ["a"] [backupA] brokenRead
  /\ CandidateFails "bkt" "b" brokenRead diskFull brokenRead
  /\ calls (snd (GetAllBackups "bkt" (Mem.start brokenRead)))
     = [] ++ CallListCommonPrefixes "bkt" "/"
          :: flat_map (fetchAndClose "bkt") ["a"]
          ++ CallGetObject "bkt" (getMetadataKey "b")
             :: match fst (GetObject "bkt" (getMetadataKey "b") brokenRead) with
                | inl _ => [CallClose "bkt" (getMetadataKey "b")]
                | inr _ => []
                end.
Proof.
  assert (H1 : ListCommonPrefixes "bkt" "/" brokenRead
               = (inl (["a"] ++ "b" :: ["d"]), brokenRead)) by reflexivity.
  assert (H2 : Decoded "bkt" brokenRead ["a"] [backupA] brokenRead)
    by (apply candidate_a_decodes; reflexivity).
  assert (H3 : CandidateFails "bkt" "b" brokenRead diskFull brokenRead)
    by (eapply ReadFails; reflexivity).
  split; [exact H1|]. split; [exact H2|]. split; [exact H3|].
  exact (GetAllBackups_failure_calls
           "bkt" (Mem.start brokenRead) _ _ _ _ _ _ _ _ H1 H2 H3).
Defined.

Example GetAllBackups_stops_at_broken_read :
  calls (snd (GetAllBackups "bkt" (Mem.start brokenRead)))
  = [CallListCommonPrefixes "bkt" "/";
     CallGetObject "bkt" "a/ark-backup.json"; CallClose "bkt" "a/ark-backup.json";
     CallGetObject "bkt" "b/ark-backup.json"; CallClose "bkt" "b/ark-backup.json"].
Proof. vm_compute. reflexivity. Qed.

Lemma GetAllBackups_error_origin_witness :
  snd (fst (GetAllBackups "bkt" (Mem.start garbled))) = Some parseError
  /\ ((exists s0, ListCommonPrefixes "bkt" "/" (objectStorage (Mem.start garbled))
                  = (inr parseError, s0))
      \/ (exists pre p post s0 backups s1 s2,
            ListCommonPrefixes "bkt" "/" (objectStorage (Mem.start garbled))
            = (inl (pre ++ p :: post), s0)
            /\ Decoded "bkt" s0 pre backups s1
            /\ CandidateFails "bkt" p s1 parseError s2)).
Proof.
  assert (H : snd (fst (GetAllBackups "bkt" (Mem.start garbled))) = Some parseError)
    by (vm_compute; reflexivity).
  split; [exact H|].
  exact (GetAllBackups_error_origin "bkt" (Mem.start garbled) parseError H).
Defined.

Lemma GetAllBackups_after_UploadBackup_witness :
  fst (UploadBackup "bkt" "nightly" "backup:nightly" "tar" "log" (Mem.start Mem.empty)) = None
  /\ Decode "backup:nightly" = inl (BackupObject (mkBackup "nightly" EmptyString EmptyString))
  /\ ListCommonPrefixes "bkt" "/"
       (objectStorage (snd (UploadBackup "bkt" "nightly" "backup:nightly" "tar" "log"
                              (Mem.start Mem.empty))))
     = (inl ["nightly"], uploaded)
  /\ fst (GetAllBackups "bkt"
            (snd (UploadBackup "bkt" "nightly" "backup:nightly" "tar" "log"
                    (Mem.start Mem.empty))))
     = (Some [mkBackup "nightly" EmptyString EmptyString], None)
  /\ ["nightly"] !! 0 = Some "nightly"
  /\ [mkBackup "nightly" EmptyString EmptyString] !! 0
     = Some (mkBackup "nightly" EmptyString EmptyString).
Proof.
  assert (H1 : fst (UploadBackup "bkt" "nightly" "backup:nightly" "tar" "log"
                      (Mem.start Mem.empty)) = None) by reflexivity.
  assert (H2 : Decode "backup:nightly"
               = inl (BackupObject (mkBackup "nightly" EmptyString EmptyString)))
    by reflexivity.
  assert (H3 : ListCommonPrefixes "bkt" "/"
                 (objectStorage (snd (UploadBackup "bkt" "nightly" "backup:nightly"
                                        "tar" "log" (Mem.start Mem.empty))))
               = (inl ["nightly"], uploaded)) by (vm_compute; reflexivity).
  assert (H4 : fst (GetAllBackups "bkt"
                      (snd (UploadBackup "bkt" "nightly" "backup:nightly" "tar" "log"
                              (Mem.start Mem.empty))))
               = (Some [mkBackup "nightly" EmptyString EmptyString], None))
    by (vm_compute; reflexivity).
  assert (H5 : ["nightly"] !! 0 = Some "nightly") by reflexivity.
  split; [exact H1|]. split; [exact H2|]. split; [exact H3|]. split; [exact H4|].
  split; [exact H5|].
  exact (GetAllBackups_after_UploadBackup
           "bkt" "nightly" "backup:nightly" "tar" "log" (Mem.start Mem.empty)
           (mkBackup "nightly" EmptyString EmptyString) ["nightly"] uploaded
           [mkBackup "nightly" EmptyString EmptyString] 0 H1 H2 H3 H4 H5).
Defined.

Lemma GetAllBackups_after_DeleteBackup_witness :
  fst (DeleteBackup "bkt" "nightly" (Mem.start uploaded)) = None
  /\ ListCommonPrefixes "bkt" "/"
       (objectStorage (snd (DeleteBackup "bkt" "nightly" (Mem.start uploaded))))
     = (inl ["nightly"], deleted)
  /\ In "nightly" ["nightly"]
  /\ exists e, fst (GetAllBackups "bkt"
                      (snd (DeleteBackup "bkt" "nightly" (Mem.start uploaded))))
               = (None, Some e).
Proof.
  assert (H1 : fst (DeleteBackup "bkt" "nightly" (Mem.start uploaded)) = None)
    by reflexivity.
  assert (H2 : ListCommonPrefixes "bkt" "/"
                 (objectStorage (snd (DeleteBackup "bkt" "nightly" (Mem.start uploaded))))
               = (inl ["nightly"], deleted)) by (vm_compute; reflexivity).
  assert (H3 : In "nightly" ["nightly"]) by (simpl; tauto).
  split; [exact H1|]. split; [exact H2|]. split; [exact H3|].
  exact (GetAllBackups_after_DeleteBackup
           "bkt" "nightly" (Mem.start uploaded) ["nightly"] deleted H1 H2 H3).
Defined.

Example GetAllBackups_after_DeleteBackup_error :
  fst (GetAllBackups "bkt" (snd (DeleteBackup "bkt" "nightly" (Mem.start uploaded))))
  = (None, Some (errorString "key not found")).
Proof. vm_compute. reflexivity. Qed.
